(** * PolyRider documentation combiner: [tools/doc_combiner.py]

    A shallow embedding of the script that concatenates the Markdown files of
    a directory into one document, and the properties of its discovery,
    reader, title extractor, combiner and exit status.

    Conventions of the embedding.
    - A Python [str] is a list of Unicode code points ([N]); the contents of a
      file are a list of bytes.
    - A call that may raise returns a [result]; a raised exception carries its
      class and the text [str(e)] gives.
    - The file system is an explicit value, read by the reader and updated by
      the writer; paths follow [posixpath].
    - Console output ([print], the progress bar) and the 0.1 s pause are not
      part of the model, except that [print_progress] divides by its [total].
    - The current time enters as the two strings [strftime] makes of it. *)

From Stdlib Require Import List NArith ZArith Bool Lia.
From Stdlib Require Import Strings.String Strings.Ascii Strings.Byte DecimalString.
From Stdlib Require Import Sorted Permutation.
Import ListNotations.

(** ** Strings *)

Definition codepoint := N.
Definition str := list codepoint.

(** An ASCII literal of the source, as a [str]. *)
Definition lit (s : String.string) : str :=
  map Ascii.N_of_ascii (String.list_ascii_of_string s).

Definition LF : codepoint := 10%N.
Definition CR : codepoint := 13%N.
Definition nl : str := [LF].

(** [Py_UNICODE_ISSPACE]: the characters [str.strip] removes and the class
    [\s] of a [str] pattern matches. *)
Definition is_space (c : codepoint) : bool :=
  ((9 <=? c) && (c <=? 13) || (28 <=? c) && (c <=? 32) ||
   (c =? 133) || (c =? 160) || (c =? 5760) ||
   (8192 <=? c) && (c <=? 8202) ||
   (c =? 8232) || (c =? 8233) || (c =? 8239) || (c =? 8287) ||
   (c =? 12288))%N.

Fixpoint lstrip (s : str) : str :=
  match s with
  | c :: s' => if is_space c then lstrip s' else s
  | [] => []
  end.

Definition rstrip (s : str) : str := rev (lstrip (rev s)).

Definition strip (s : str) : str := rstrip (lstrip s).

Fixpoint startswith (s p : str) : bool :=
  match p, s with
  | [], _ => true
  | a :: p', b :: s' => (a =? b)%N && startswith s' p'
  | _ :: _, [] => false
  end.

Definition endswith (s p : str) : bool := startswith (rev s) (rev p).

(** [s.replace(old, new)] where [old] is one character, as at every call
    site of the script. *)
Definition replace (old : codepoint) (new : str) (s : str) : str :=
  flat_map (fun c => if (c =? old)%N then new else [c]) s.

(** ["sep".join(parts)] *)
Fixpoint join (sep : str) (parts : list str) : str :=
  match parts with
  | [] => []
  | [p] => p
  | p :: rest => p ++ sep ++ join sep rest
  end.

(** [str(n)] for a non-negative integer, as an f-string formats it. *)
Definition str_of_nat (n : nat) : str :=
  lit (NilEmpty.string_of_uint (Nat.to_uint n)).

Definition str_eqb (a b : str) : bool :=
  if list_eq_dec N.eq_dec a b then true else false.

(** *** Case mapping

    [str.lower] and [str.title] on a string with a character outside ASCII
    consult the Unicode database of the interpreter, which is not part of the
    script: they are parameters of the development. On ASCII strings the
    mapping is written out. *)
Class UnicodeData := {
  unicode_lower : str -> str;
  unicode_title : str -> str;
  (** [repr(s)], as the message of an [OSError] quotes a file name *)
  unicode_repr  : str -> str
}.

Definition is_ascii (s : str) : bool := forallb (fun c => (c <? 128)%N) s.

Definition is_ascii_upper (c : codepoint) : bool := ((65 <=? c) && (c <=? 90))%N.
Definition is_ascii_lower (c : codepoint) : bool := ((97 <=? c) && (c <=? 122))%N.
Definition ascii_lower (c : codepoint) : codepoint :=
  if is_ascii_upper c then (c + 32)%N else c.
Definition ascii_upper (c : codepoint) : codepoint :=
  if is_ascii_lower c then (c - 32)%N else c.

(** [do_title]: a cased character is upper-cased when the previous character
    is not cased, lower-cased otherwise. *)
Fixpoint ascii_title (previous_is_cased : bool) (s : str) : str :=
  match s with
  | [] => []
  | c :: s' =>
      (if previous_is_cased then ascii_lower c else ascii_upper c)
        :: ascii_title (is_ascii_upper c || is_ascii_lower c) s'
  end.

Section CaseMapping.
Context {ud : UnicodeData}.

Definition lower (s : str) : str :=
  if is_ascii s then map ascii_lower s else unicode_lower s.

Definition title (s : str) : str :=
  if is_ascii s then ascii_title false s else unicode_title s.
End CaseMapping.

(** The case mapping that leaves every non-ASCII string alone; used to run
    the model on ASCII inputs. *)
Definition ascii_only : UnicodeData :=
  {| unicode_lower := fun s => s;
     unicode_title := fun s => s;
     unicode_repr := fun s => lit "'" ++ s ++ lit "'" |}.

(** ** Exceptions *)

Inductive exc_class :=
  | FileNotFoundError | NotADirectoryError | IsADirectoryError
  | FileExistsError
  | UnicodeDecodeError | UnicodeEncodeError
  | TypeError | UnboundLocalError | ZeroDivisionError
  | Exception.

(** A raised exception: its class and [str(e)]. Every class above derives
    from [Exception], so [except Exception] catches all of them. *)
Record exn := mk_exn { exn_class : exc_class; exn_msg : str }.

Inductive result (A : Type) :=
  | Ok (a : A)
  | Raise (e : exn).
Arguments Ok {A} a.
Arguments Raise {A} e.

Definition is_UnicodeDecodeError (e : exn) : bool :=
  match exn_class e with UnicodeDecodeError => true | _ => false end.

(** ** Paths ([posixpath]) *)

Definition SEP : codepoint := 47%N.
Definition EXTSEP : codepoint := 46%N.

Fixpoint rfind_from (c : codepoint) (s : str) (i last : Z) : Z :=
  match s with
  | [] => last
  | x :: s' => rfind_from c s' (i + 1)%Z (if (x =? c)%N then i else last)
  end.

(** [s.rfind(c)]: the index of the last [c], or -1. *)
Definition rfind (c : codepoint) (s : str) : Z := rfind_from c s 0%Z (-1)%Z.

(** [s[i:j]] for non-negative indices. *)
Definition slice (s : str) (i j : Z) : str :=
  firstn (Z.to_nat j - Z.to_nat i) (skipn (Z.to_nat i) s).

Definition path_join (a b : str) : str :=
  if startswith b [SEP] then b
  else if (match a with [] => true | _ => false end) || endswith a [SEP]
       then a ++ b
       else a ++ [SEP] ++ b.

Definition basename (p : str) : str :=
  let i := (rfind SEP p + 1)%Z in
  skipn (Z.to_nat i) p.

Fixpoint rstrip_sep_rev (r : str) : str :=
  match r with
  | c :: r' => if (c =? SEP)%N then rstrip_sep_rev r' else r
  | [] => []
  end.

Definition dirname (p : str) : str :=
  let i := (rfind SEP p + 1)%Z in
  let head := firstn (Z.to_nat i) p in
  if negb (match head with [] => true | _ => false end)
     && negb (forallb (fun c => (c =? SEP)%N) head)
  then rev (rstrip_sep_rev (rev head))
  else head.

(** [genericpath._splitext]: split at the last dot of the last component,
    unless only dots precede it there. *)
Definition splitext (p : str) : str * str :=
  let sepIndex := rfind SEP p in
  let dotIndex := rfind EXTSEP p in
  if (dotIndex >? sepIndex)%Z then
    if forallb (fun c => (c =? EXTSEP)%N) (slice p (sepIndex + 1) dotIndex)
    then (p, [])
    else (firstn (Z.to_nat dotIndex) p, skipn (Z.to_nat dotIndex) p)
  else (p, []).

(** ** Regular expressions

    A backtracking matcher in continuation-passing style for the constructs
    the two patterns of the script use: a literal character, and a greedy
    [+] over a character class, which tries the longest run first and gives
    characters back one at a time. The continuation receives the text the
    repetition matched and the rest of the subject. *)
Section Regex.
Variable R : Type.

Fixpoint re_star (cls : codepoint -> bool) (k : str -> str -> option R)
         (matched s : str) : option R :=
  match s with
  | c :: s' =>
      if cls c then
        match re_star cls k (matched ++ [c]) s' with
        | Some r => Some r
        | None => k matched s
        end
      else k matched s
  | [] => k matched []
  end.

Definition re_plus (cls : codepoint -> bool) (k : str -> str -> option R)
           (s : str) : option R :=
  match s with
  | c :: s' => if cls c then re_star cls k [c] s' else None
  | [] => None
  end.

Definition re_char (c : codepoint) (k : str -> option R) (s : str) : option R :=
  match s with
  | x :: s' => if (x =? c)%N then k s' else None
  | [] => None
  end.
End Regex.
Arguments re_star {R} cls k matched s.
Arguments re_plus {R} cls k s.
Arguments re_char {R} c k s.

Definition HASH : codepoint := 35%N.

(** [.] without [re.DOTALL]: any character but a line feed. *)
Definition re_dot (c : codepoint) : bool := negb (c =? LF)%N.

(** [$] under [re.MULTILINE]: the end of the subject or just before a line
    feed. *)
Definition at_eol (s : str) : bool :=
  match s with
  | [] => true
  | c :: _ => (c =? LF)%N
  end.

(** A match of [#\s+(.+)$] starting at the head of [s]: its group 1. *)
Definition heading_at (s : str) : option str :=
  re_char HASH
    (re_plus is_space (fun _ s1 =>
       re_plus re_dot (fun g s2 => if at_eol s2 then Some g else None) s1))
    s.

(** [re.search(r'^#\s+(.+)$', content, re.MULTILINE)]: start positions are
    tried from left to right; [^] holds at the start of the subject and after
    every line feed. The result is group 1 of the first match. *)
Fixpoint search_heading (at_bol : bool) (s : str) : option str :=
  match (if at_bol then heading_at s else None) with
  | Some g => Some g
  | None =>
      match s with
      | [] => None
      | c :: s' => search_heading (c =? LF)%N s'
      end
  end.

(** A match of [^#\s+.+\n] without flags: [^] holds at the start of the
    subject only. The result is what follows the match. *)
Definition heading_line_at_start (s : str) : option str :=
  re_char HASH
    (re_plus is_space (fun _ s1 =>
       re_plus re_dot (fun _ s2 => re_char LF (fun s3 => Some s3) s2) s1))
    s.

(** [re.sub(pattern=r'^#\s+.+\n', repl='', string=s, count=1)] *)
Definition remove_first_heading (s : str) : str :=
  match heading_line_at_start s with
  | Some rest => rest
  | None => s
  end.

(** ** Title extraction *)
Section Title.
Context {ud : UnicodeData}.

Definition get_file_title (file_path content : str) : str :=
  match search_heading true content with
  | Some group1 => strip group1
  | None =>
      title (replace 95%N (lit " ")
               (replace 45%N (lit " ")
                  (fst (splitext (basename file_path)))))
  end.
End Title.

(** ** Sorting

    [list.sort()] on strings: ascending in the lexicographic order of code
    points. *)
Fixpoint str_leb (a b : str) : bool :=
  match a, b with
  | [], _ => true
  | _ :: _, [] => false
  | x :: a', y :: b' =>
      if (x <? y)%N then true
      else if (x =? y)%N then str_leb a' b'
      else false
  end.

Definition str_le (a b : str) : Prop := str_leb a b = true.

Fixpoint insert_sorted (x : str) (l : list str) : list str :=
  match l with
  | [] => [x]
  | y :: l' => if str_leb x y then x :: l else y :: insert_sorted x l'
  end.

Definition sort (l : list str) : list str := fold_right insert_sorted [] l.

(** ** File system *)

Inductive node :=
  | File (data : list byte)
  | Dir (entries : list str).

(** Paths and what is found there; the first binding of a path counts. The
    entries of a directory are in the order [os.listdir] reports them. *)
Definition filesystem := list (str * node).

Fixpoint fs_lookup (fs : filesystem) (p : str) : option node :=
  match fs with
  | [] => None
  | (q, n) :: fs' => if str_eqb q p then Some n else fs_lookup fs' p
  end.

(** [os.path.exists] *)
Definition path_exists (fs : filesystem) (p : str) : bool :=
  match fs_lookup fs p with
  | Some _ => true
  | None => false
  end.

(** The encodings the script names. *)
Inductive encoding := UTF8 | Latin1 | Windows1252 | ASCII.

(** What [open(path, 'r', encoding=enc).read()] makes of the bytes of a file:
    the text, or [None] for a [UnicodeDecodeError]. The codecs belong to the
    interpreter; [python_codecs] below writes them out. *)
Class Codecs := { decode : encoding -> list byte -> option str }.

Section OS.
Context {ud : UnicodeData}.

(** [str(e)] of an [OSError] with a file name (Linux [errno] values). *)
Definition os_error (c : exc_class) (p : str) : exn :=
  mk_exn c
    (match c with
     | FileNotFoundError => lit "[Errno 2] No such file or directory: "
     | NotADirectoryError => lit "[Errno 20] Not a directory: "
     | IsADirectoryError => lit "[Errno 21] Is a directory: "
     | FileExistsError => lit "[Errno 17] File exists: "
     | _ => []
     end ++ unicode_repr p).

(** [os.listdir] *)
Definition listdir (fs : filesystem) (p : str) : result (list str) :=
  match fs_lookup fs p with
  | Some (Dir entries) => Ok entries
  | Some (File _) => Raise (os_error NotADirectoryError p)
  | None => Raise (os_error FileNotFoundError p)
  end.

Context {cd : Codecs}.

(** [with open(p, 'r', encoding=enc) as file: return file.read()]. The
    message of the [UnicodeDecodeError] is never read by the script. *)
Definition open_read (fs : filesystem) (p : str) (enc : encoding) : result str :=
  match fs_lookup fs p with
  | Some (File data) =>
      match decode enc data with
      | Some text => Ok text
      | None => Raise (mk_exn UnicodeDecodeError [])
      end
  | Some (Dir _) => Raise (os_error IsADirectoryError p)
  | None => Raise (os_error FileNotFoundError p)
  end.
End OS.

(** ** Discovery *)
Section Discovery.
Context {ud : UnicodeData}.

Definition is_markdown (file : str) : bool := endswith (lower file) (lit ".md").

Definition find_markdown_files (fs : filesystem) (directory : str)
  : result (list str) :=
  if negb (path_exists fs directory) then
    Raise (mk_exn FileNotFoundError (lit "Directory not found: " ++ directory))
  else
    match listdir fs directory with
    | Ok names =>
        Ok (sort (map (path_join directory) (filter is_markdown names)))
    | Raise e =>
        Raise (mk_exn Exception
                 (lit "Error finding Markdown files: " ++ exn_msg e))
    end.
End Discovery.

(** ** Reader *)

Definition ENCODING : encoding := UTF8.

Section Reader.
Context {ud : UnicodeData} {cd : Codecs}.

(** The [for encoding in encodings] loop of the [except UnicodeDecodeError]
    branch. [UnicodeDecodeError] takes five arguments, so the [raise] after
    the loop, which passes one, raises [TypeError]. An exception raised here
    is already inside a handler: the [except Exception] clause of the same
    [try] does not see it. *)
Fixpoint try_encodings (fs : filesystem) (file_path : str)
         (encodings : list encoding) : result str :=
  match encodings with
  | enc :: rest =>
      match open_read fs file_path enc with
      | Ok text => Ok text
      | Raise e =>
          if is_UnicodeDecodeError e then try_encodings fs file_path rest
          else Raise e
      end
  | [] =>
      Raise (mk_exn TypeError
               (lit "function takes exactly 5 arguments (1 given)"))
  end.

Definition read_file_content (fs : filesystem) (file_path : str) : result str :=
  if negb (path_exists fs file_path) then
    Raise (mk_exn FileNotFoundError (lit "File not found: " ++ file_path))
  else
    match open_read fs file_path ENCODING with
    | Ok text => Ok text
    | Raise e =>
        if is_UnicodeDecodeError e then
          try_encodings fs file_path [Latin1; Windows1252; ASCII]
        else
          Raise (mk_exn Exception
                   (lit "Error reading file " ++ file_path ++ lit ": "
                      ++ exn_msg e))
    end.
End Reader.

(** ** The codecs of the interpreter *)

Definition in_range (lo hi b : N) : bool := ((lo <=? b) && (b <=? hi))%N.

(** The strict UTF-8 decoder: shortest forms only, no surrogates, nothing
    above U+10FFFF. *)
Fixpoint utf8_decode (bs : list N) : option str :=
  match bs with
  | [] => Some []
  | b0 :: r0 =>
      if (b0 <? 128)%N then option_map (cons b0) (utf8_decode r0)
      else if in_range 194 223 b0 then
        match r0 with
        | b1 :: r1 =>
            if in_range 128 191 b1
            then option_map (cons ((b0 - 192) * 64 + (b1 - 128))%N)
                            (utf8_decode r1)
            else None
        | _ => None
        end
      else if in_range 224 239 b0 then
        match r0 with
        | b1 :: b2 :: r2 =>
            if in_range (if (b0 =? 224)%N then 160 else 128)
                        (if (b0 =? 237)%N then 159 else 191) b1
               && in_range 128 191 b2
            then option_map
                   (cons ((b0 - 224) * 4096 + (b1 - 128) * 64 + (b2 - 128))%N)
                   (utf8_decode r2)
            else None
        | _ => None
        end
      else if in_range 240 244 b0 then
        match r0 with
        | b1 :: b2 :: b3 :: r3 =>
            if in_range (if (b0 =? 240)%N then 144 else 128)
                        (if (b0 =? 244)%N then 143 else 191) b1
               && in_range 128 191 b2 && in_range 128 191 b3
            then option_map
                   (cons ((b0 - 240) * 262144 + (b1 - 128) * 4096
                          + (b2 - 128) * 64 + (b3 - 128))%N)
                   (utf8_decode r3)
            else None
        | _ => None
        end
      else None
  end.

(** Latin-1: every byte is the code point of the same number. *)
Definition latin1_decode (bs : list N) : option str := Some bs.

(** Windows-1252: five bytes are undefined; 0x80..0x9F otherwise map into
    the general punctuation and Latin extended blocks. *)
Definition cp1252_char (b : N) : option codepoint :=
  if in_range 128 159 b then
    nth (N.to_nat (b - 128))
      [Some 8364; None; Some 8218; Some 402; Some 8222; Some 8230; Some 8224;
       Some 8225; Some 710; Some 8240; Some 352; Some 8249; Some 338; None;
       Some 381; None; None; Some 8216; Some 8217; Some 8220; Some 8221;
       Some 8226; Some 8211; Some 8212; Some 732; Some 8482; Some 353;
       Some 8250; Some 339; None; Some 382; Some 376]%N
      None
  else Some b.

Fixpoint cp1252_decode (bs : list N) : option str :=
  match bs with
  | [] => Some []
  | b :: r =>
      match cp1252_char b with
      | Some c => option_map (cons c) (cp1252_decode r)
      | None => None
      end
  end.

Definition ascii_decode (bs : list N) : option str :=
  if forallb (fun b => (b <? 128)%N) bs then Some bs else None.

(** Text mode with the default [newline=None]: CR LF and a lone CR are read
    as LF. *)
Fixpoint universal_newlines (s : str) : str :=
  match s with
  | [] => []
  | c :: s' =>
      if (c =? CR)%N then
        match s' with
        | d :: s'' =>
            if (d =? LF)%N then LF :: universal_newlines s''
            else LF :: universal_newlines s'
        | [] => [LF]
        end
      else c :: universal_newlines s'
  end.

Definition codec (enc : encoding) : list N -> option str :=
  match enc with
  | UTF8 => utf8_decode
  | Latin1 => latin1_decode
  | Windows1252 => cp1252_decode
  | ASCII => ascii_decode
  end.

Definition python_decode (enc : encoding) (data : list byte) : option str :=
  option_map universal_newlines (codec enc (map Byte.to_N data)).

Definition python_codecs : Codecs := {| decode := python_decode |}.

(** ** Combiner *)

(** [print_progress] computes [current / float(total)] before it writes to
    the console. *)
Definition print_progress (current total : nat) : result unit :=
  if (total =? 0)%nat
  then Raise (mk_exn ZeroDivisionError (lit "float division by zero"))
  else Ok tt.

(** The local variables of [combine_markdown_files] that its second loop
    updates. [filename] is unbound until line 170 has run once. *)
Record locals := mk_locals {
  combined_content : list str;
  filename : option str
}.

(** Reading [filename] before line 170 has run (the message of Python 3.11
    and later). *)
Definition unbound_filename : exn :=
  mk_exn UnboundLocalError
    (lit "cannot access local variable 'filename' where it is not associated with a value").

Section Combiner.
Context {ud : UnicodeData} {cd : Codecs}.

(** The anchor of a table-of-contents entry:
    [title.lower().replace(' ', '-').replace('.', '').replace(':', '')] *)
Definition toc_anchor (title : str) : str :=
  replace 58%N [] (replace 46%N [] (replace 32%N (lit "-") (lower title))).

(** One iteration of the table-of-contents loop: the entry appended. *)
Definition toc_entry (fs : filesystem) (i : nat) (file_path : str) : str :=
  match read_file_content fs file_path with
  | Ok content =>
      let title := get_file_title file_path content in
      str_of_nat (i + 1) ++ lit ". [" ++ title ++ lit "](#"
        ++ toc_anchor title ++ lit ")"
  | Raise e =>
      str_of_nat (i + 1) ++ lit ". [Error: " ++ basename file_path
        ++ lit "](#error-" ++ str_of_nat (i + 1) ++ lit ")"
  end.

Fixpoint toc_entries (fs : filesystem) (i : nat) (files : list str) : list str :=
  match files with
  | [] => []
  | file_path :: rest => toc_entry fs i file_path :: toc_entries fs (S i) rest
  end.

(** Lines 173 to 186: what the [try] body appends once the file is read.
    The end marker is a plain string literal in the source. *)
Definition file_section (file_path content : str) : list str :=
  let title := get_file_title file_path content in
  let filename := basename file_path in
  let content :=
    if startswith (lstrip content) (lit "# ")
    then remove_first_heading (lstrip content)
    else content in
  [ lit "<!-- BEGIN: " ++ filename ++ lit " -->" ++ nl ++ nl;
    lit "# " ++ title ++ nl ++ nl;
    lit "*Source: `" ++ filename ++ lit "`*" ++ nl ++ nl;
    strip content;
    nl ++ nl;
    lit "<!-- END: {filename} -->" ++ nl ++ nl;
    lit "---" ++ nl ++ nl ].

(** Lines 192 to 196: what the handler appends, given the value of
    [filename]. *)
Definition error_section (filename : str) (e : exn) : list str :=
  [ lit "<!-- BEGIN: ERROR - " ++ filename ++ lit " -->" ++ nl ++ nl;
    lit "# Error: Could not process " ++ filename ++ nl ++ nl;
    lit "Error details: " ++ exn_msg e ++ nl ++ nl;
    lit "<!-- END: ERROR - " ++ filename ++ lit " -->" ++ nl ++ nl;
    lit "---" ++ nl ++ nl ].

(** One iteration of the second loop. Inside the [try], only
    [print_progress] and [read_file_content] can raise, and both run before
    the iteration assigns anything: the handler sees the locals as the
    previous iteration left them. Reading an unbound [filename] in the
    handler raises [UnboundLocalError], which leaves the function. *)
Definition process_file (fs : filesystem) (total i : nat) (file_path : str)
           (st : locals) : result locals :=
  match
    match print_progress i total with
    | Ok _ => read_file_content fs file_path
    | Raise e => Raise e
    end
  with
  | Ok content =>
      Ok {| combined_content :=
              combined_content st ++ file_section file_path content;
            filename := Some (basename file_path) |}
  | Raise e =>
      match filename st with
      | Some name =>
          Ok {| combined_content := combined_content st ++ error_section name e;
                filename := filename st |}
      | None => Raise unbound_filename
      end
  end.

Fixpoint process_files (fs : filesystem) (total i : nat) (files : list str)
         (st : locals) : result locals :=
  match files with
  | [] => Ok st
  | file_path :: rest =>
      match process_file fs total i file_path st with
      | Ok st' => process_files fs total (S i) rest st'
      | Raise e => Raise e
      end
  end.

(** Lines 145 to 161: the header and the table of contents. [timestamp]
    is [datetime.datetime.now().strftime("%Y-%m-%d %H:%M:%S")]. *)
Definition header_and_toc (fs : filesystem) (timestamp : str)
           (files : list str) : list str :=
  let toc := toc_entries fs 0 files in
  [ lit "# Logbie Framework - Combined Documentation" ++ nl ++ nl;
    lit "*Generated on: " ++ timestamp ++ lit "*" ++ nl ++ nl;
    lit "## Table of Contents" ++ nl ++ nl;
    join nl toc ++ nl ++ nl;
    lit "---" ++ nl ++ nl ].

Definition combine_markdown_files (fs : filesystem) (timestamp : str)
           (files : list str) : result str :=
  let st0 :=
    {| combined_content := header_and_toc fs timestamp files;
       filename := None |} in
  match process_files fs (List.length files) 0 files st0 with
  | Raise e => Raise e
  | Ok st =>
      match print_progress (List.length files) (List.length files) with
      | Raise e => Raise e
      | Ok _ => Ok (List.concat (combined_content st))
      end
  end.
End Combiner.

(** ** Writer *)

Definition is_surrogate (c : codepoint) : bool := in_range 55296 57343 c.

(** UTF-8 of one character (a code point of a [str] is at most U+10FFFF); a
    surrogate has none. *)
Definition utf8_encode_char (c : codepoint) : option (list N) :=
  (if c <? 128 then Some [c]
   else if c <? 2048 then Some [192 + c / 64; 128 + c mod 64]
   else if c <? 65536 then
     if is_surrogate c then None
     else Some [224 + c / 4096; 128 + (c / 64) mod 64; 128 + c mod 64]
   else
     Some [240 + c / 262144; 128 + (c / 4096) mod 64;
           128 + (c / 64) mod 64; 128 + c mod 64])%N.

Definition byte_of_N (n : N) : byte :=
  match Byte.of_N n with
  | Some b => b
  | None => x00
  end.

Definition hex_digit (d : N) : codepoint :=
  (if d <? 10 then 48 + d else 87 + d)%N.

Fixpoint surrogate_run (s : str) : nat :=
  match s with
  | c :: s' => if is_surrogate c then S (surrogate_run s') else 0
  | [] => 0
  end.

(** [str(e)] of the [UnicodeEncodeError] of the UTF-8 encoder, which reports
    the whole run of surrogates that starts at [pos]. *)
Definition encode_error (pos : nat) (c : codepoint) (rest : str) : exn :=
  let more := surrogate_run rest in
  mk_exn UnicodeEncodeError
    (lit "'utf-8' codec can't encode character"
     ++ (if (more =? 0)%nat then
           lit " '\u"
             ++ map hex_digit
                  [c / 4096; (c / 256) mod 16; (c / 16) mod 16; c mod 16]%N
             ++ lit "' in position " ++ str_of_nat pos
         else
           lit "s in position " ++ str_of_nat pos ++ lit "-"
             ++ str_of_nat (pos + more))
     ++ lit ": surrogates not allowed").

Fixpoint utf8_encode_from (pos : nat) (s : str) : result (list byte) :=
  match s with
  | [] => Ok []
  | c :: s' =>
      match utf8_encode_char c with
      | None => Raise (encode_error pos c s')
      | Some bs =>
          match utf8_encode_from (S pos) s' with
          | Ok data => Ok (map byte_of_N bs ++ data)
          | Raise e => Raise e
          end
      end
  end.

Definition utf8_encode (s : str) : result (list byte) := utf8_encode_from 0 s.

(** *** Commands on the file system

    A command takes the file system and gives the file system it leaves
    behind, with its value or the exception it raised. *)
Definition io (A : Type) : Type := filesystem -> filesystem * result A.

Definition io_ret {A} (a : A) : io A := fun fs => (fs, Ok a).

Definition io_raise {A} (e : exn) : io A := fun fs => (fs, Raise e).

Definition io_bind {A B} (m : io A) (k : A -> io B) : io B :=
  fun fs =>
    match m fs with
    | (fs', Ok a) => k a fs'
    | (fs', Raise e) => (fs', Raise e)
    end.

(** [try: m  except Exception as e: h e] *)
Definition io_try {A} (m : io A) (h : exn -> io A) : io A :=
  fun fs =>
    match m fs with
    | (fs', Ok a) => (fs', Ok a)
    | (fs', Raise e) => h e fs'
    end.

(** A call that only looks at the file system. *)
Definition io_read {A} (f : filesystem -> result A) : io A :=
  fun fs => (fs, f fs).

Notation "x <- m ;; k" := (io_bind m (fun x => k))
  (at level 61, m at next level, right associativity).
Notation "m ;;; k" := (io_bind m (fun _ => k))
  (at level 61, right associativity).

Section Writer.
Context {ud : UnicodeData}.

(** Enter [p] into the listing of its parent directory. *)
Definition link (p : str) (n : node) : io unit :=
  fun fs =>
    match fs_lookup fs (dirname p) with
    | Some (Dir entries) =>
        let entries' :=
          if existsb (str_eqb (basename p)) entries then entries
          else entries ++ [basename p] in
        ((p, n) :: (dirname p, Dir entries') :: fs, Ok tt)
    | Some (File _) => (fs, Raise (os_error NotADirectoryError p))
    | None => (fs, Raise (os_error FileNotFoundError p))
    end.

(** [os.mkdir] *)
Definition mkdir (p : str) : io unit :=
  fun fs =>
    if path_exists fs p then (fs, Raise (os_error FileExistsError p))
    else link p (Dir []) fs.

(** [os.makedirs] of a path without a trailing separator: the missing
    ancestors first. [fuel] bounds the depth; the length of the path is
    enough. *)
Fixpoint makedirs_upto (fuel : nat) (name : str) : io unit :=
  match fuel with
  | O => mkdir name
  | S fuel' =>
      let head := dirname name in
      let tail := basename name in
      (fun fs =>
         if negb (str_eqb head []) && negb (str_eqb tail [])
            && negb (path_exists fs head)
         then makedirs_upto fuel' head fs
         else (fs, Ok tt)) ;;;
      mkdir name
  end.

Definition makedirs (name : str) : io unit :=
  makedirs_upto (List.length name) name.

(** [open(p, 'w', encoding='utf-8')]: the file is created or truncated. *)
Definition open_write (p : str) : io unit :=
  fun fs =>
    match fs_lookup fs p with
    | Some (Dir _) => (fs, Raise (os_error IsADirectoryError p))
    | _ => link p (File []) fs
    end.

(** [file.write(content)] and the flush on leaving the [with] block. *)
Definition file_write (p : str) (content : str) : io unit :=
  fun fs =>
    match utf8_encode content with
    | Ok data => ((p, File data) :: fs, Ok tt)
    | Raise e => (fs, Raise e)
    end.

Definition write_output_file (content output_path : str) : io unit :=
  io_try
    (open_write output_path ;;; file_write output_path content)
    (fun e =>
       io_raise (mk_exn Exception
                   (lit "Error writing output file: " ++ exn_msg e))).
End Writer.

(** ** The run *)
Section Main.
Context {ud : UnicodeData} {cd : Codecs}.

(** [script_path] is [os.path.abspath(__file__)]; [timestamp] and
    [date_str] are the two renderings of the current time. The value is
    what [main()] returns: [None] for the bare [return]. *)
Definition main (script_path timestamp date_str : str) : io (option Z) :=
  let OUTPUT_DIR := dirname (dirname script_path) in
  let DOCS_DIR := path_join OUTPUT_DIR (lit "Docs") in
  io_try
    (output_dir_exists <- io_read (fun fs => Ok (path_exists fs OUTPUT_DIR)) ;;
     (if negb output_dir_exists then makedirs OUTPUT_DIR else io_ret tt) ;;;
     markdown_files <- io_read (fun fs => find_markdown_files fs DOCS_DIR) ;;
     match markdown_files with
     | [] => io_ret None
     | _ :: _ =>
         combined_content <-
           io_read (fun fs => combine_markdown_files fs timestamp markdown_files) ;;
         let output_filename := lit "logbie_docs_" ++ date_str ++ lit ".md" in
         let output_path := path_join OUTPUT_DIR output_filename in
         write_output_file combined_content output_path ;;;
         io_ret (Some 0%Z)
     end)
    (fun e => io_ret (Some 1%Z)).

(** [sys.exit(main())]: the exit status of the process. *)
Definition sys_exit (value : option Z) : Z :=
  match value with
  | None => 0%Z
  | Some n => n
  end.

Definition exit_status (script_path timestamp date_str : str)
           (fs : filesystem) : Z :=
  match main script_path timestamp date_str fs with
  | (_, Ok value) => sys_exit value
  | (_, Raise _) => 1%Z
  end.
End Main.

(** ** Notions of the specification *)

(** The text of the first encoding of the list that decodes the data. *)
Fixpoint first_decoding {cd : Codecs} (encodings : list encoding)
         (data : list byte) : option str :=
  match encodings with
  | [] => None
  | enc :: rest =>
      match decode enc data with
      | Some text => Some text
      | None => first_decoding rest data
      end
  end.

(** What is left of the text after each of its line feeds. *)
Fixpoint after_line_feeds (s : str) : list str :=
  match s with
  | [] => []
  | c :: s' =>
      if (c =? LF)%N then s' :: after_line_feeds s' else after_line_feeds s'
  end.

(** The text from the start of each of its lines on. *)
Definition line_starts (s : str) : list str := s :: after_line_feeds s.

(** The line starts the search visits from a position on. *)
Definition starts_from (at_bol : bool) (s : str) : list str :=
  (if at_bol then [s] else []) ++ after_line_feeds s.

(** The line at the head of a text, without its line feed. *)
Fixpoint first_line (s : str) : str :=
  match s with
  | [] => []
  | c :: s' => if (c =? LF)%N then [] else c :: first_line s'
  end.

Definition lines (s : str) : list str := map first_line (line_starts s).

(** A line that begins with [#] followed by a whitespace character. *)
Definition is_heading_line (l : str) : bool :=
  match l with
  | c :: d :: _ => (c =? HASH)%N && is_space d
  | _ => false
  end.

(** A line that is [#] alone. *)
Definition is_bare_hash (l : str) : bool := str_eqb l [HASH].

(** A line that is neither. *)
Definition is_plain_line (l : str) : bool :=
  negb (is_heading_line l) && negb (is_bare_hash l).

(** The rest of the text, from a position on, begins with [#] followed by a
    character of the class [\s], which may be the line feed that ends the
    line: where the pattern can start to match. This is a notion of the
    proofs, on the text and not on its lines. *)
Definition begins_heading (s : str) : bool :=
  match s with
  | c :: d :: _ => (c =? HASH)%N && is_space d
  | _ => false
  end.

Definition no_heading (ss : list str) : bool :=
  forallb (fun s => negb (begins_heading s)) ss.

(** [string.punctuation] *)
Definition is_punctuation (c : codepoint) : bool :=
  in_range 33 47 c || in_range 58 64 c || in_range 91 96 c || in_range 123 126 c.

(** The number of places of [s] at which [p] occurs. *)
Fixpoint occurrences (p s : str) : nat :=
  (if startswith s p then 1 else 0) +
  match s with
  | [] => 0
  | _ :: s' => occurrences p s'
  end.

(** A character other than [c]. *)
Definition is_not (c : codepoint) (x : codepoint) : bool := negb (x =? c)%N.

(** [file_path] cannot be read. *)
Definition unreadable {ud : UnicodeData} {cd : Codecs} (fs : filesystem)
           (file_path : str) : Prop :=
  exists e, read_file_content fs file_path = Raise e.

(** The section of the combined document for [file_path], which stands in
    the list of files after the files [earlier], fragment by fragment.
    For a file that is read: the begin marker with its base name, the
    heading with its title, the source line with its base name, its text
    (without the leading heading line, trimmed), the end marker as line 185
    writes it, and the rule. For a file that cannot be read: the error
    markers, heading and details with the message of its exception; the name
    in them is the base name of the last earlier file that was read. *)
Inductive section_of {ud : UnicodeData} {cd : Codecs} (fs : filesystem)
          (earlier : list str) (file_path : str) : list str -> Prop :=
  | section_of_text (content : str) :
      read_file_content fs file_path = Ok content ->
      section_of fs earlier file_path
        [ lit "<!-- BEGIN: " ++ basename file_path ++ lit " -->" ++ nl ++ nl;
          lit "# " ++ get_file_title file_path content ++ nl ++ nl;
          lit "*Source: `" ++ basename file_path ++ lit "`*" ++ nl ++ nl;
          strip (if startswith (lstrip content) (lit "# ")
                 then remove_first_heading (lstrip content)
                 else content);
          nl ++ nl;
          lit "<!-- END: {filename} -->" ++ nl ++ nl;
          lit "---" ++ nl ++ nl ]
  | section_of_error (e : exn) (before : list str) (other : str)
                     (between : list str) (text : str) :
      read_file_content fs file_path = Raise e ->
      earlier = before ++ other :: between ->
      read_file_content fs other = Ok text ->
      Forall (unreadable fs) between ->
      section_of fs earlier file_path
        [ lit "<!-- BEGIN: ERROR - " ++ basename other ++ lit " -->" ++ nl ++ nl;
          lit "# Error: Could not process " ++ basename other ++ nl ++ nl;
          lit "Error details: " ++ exn_msg e ++ nl ++ nl;
          lit "<!-- END: ERROR - " ++ basename other ++ lit " -->" ++ nl ++ nl;
          lit "---" ++ nl ++ nl ].

(** One section per file, in the order of the files: the section at
    position [i] is the section of the file at position [i]. *)
Definition sections_in_order {ud : UnicodeData} {cd : Codecs} (fs : filesystem)
           (files : list str) (sections : list (list str)) : Prop :=
  List.length sections = List.length files /\
  forall (i : nat) (file_path : str),
    nth_error files i = Some file_path ->
    exists section,
      nth_error sections i = Some section /\
      section_of fs (firstn i files) file_path section.

(** The file of the round-trip property. *)
Definition round_trip_body : str := lit "# Title" ++ nl ++ nl ++ lit "Body text.".

(** What the combiner makes of that file alone, given its name. *)
Definition round_trip_document (timestamp name : str) : str :=
  lit "# Logbie Framework - Combined Documentation" ++ nl ++ nl
  ++ lit "*Generated on: " ++ timestamp ++ lit "*" ++ nl ++ nl
  ++ lit "## Table of Contents" ++ nl ++ nl
  ++ lit "1. [Title](#title)" ++ nl ++ nl
  ++ lit "---" ++ nl ++ nl
  ++ lit "<!-- BEGIN: " ++ name ++ lit " -->" ++ nl ++ nl
  ++ lit "# Title" ++ nl ++ nl
  ++ lit "*Source: `" ++ name ++ lit "`*" ++ nl ++ nl
  ++ lit "Body text."
  ++ nl ++ nl
  ++ lit "<!-- END: {filename} -->" ++ nl ++ nl
  ++ lit "---" ++ nl ++ nl.

(** ** Sample inputs

    A checkout at [/repo] with the script in [/repo/tools]. *)

Definition bytes_of (s : str) : list byte := map byte_of_N s.

Definition sample_script : str := lit "/repo/tools/doc_combiner.py".
Definition sample_docs : str := lit "/repo/Docs".
Definition sample_timestamp : str := lit "2025-01-31 12:00:00".
Definition sample_date : str := lit "20250131".

Definition sample_names : list str :=
  [lit "zeta.MD"; lit "doc.md"; lit "notes.txt"; lit "alpha.md"].

(** [doc.md] is the file of the round-trip property; [zeta.MD] is Latin-1
    text that is not UTF-8 ([caf\xe9]); [alpha.md] has no heading. *)
Definition sample_fs : filesystem :=
  [ (lit "/repo", Dir [lit "tools"; lit "Docs"]);
    (sample_docs, Dir sample_names);
    (lit "/repo/Docs/doc.md", File (bytes_of round_trip_body));
    (lit "/repo/Docs/zeta.MD", File (bytes_of (lit "caf" ++ [233%N])));
    (lit "/repo/Docs/notes.txt", File (bytes_of (lit "plain")));
    (lit "/repo/Docs/alpha.md", File (bytes_of (lit "first" ++ nl ++ lit "second"))) ].

(** The same checkout with a directory named [a.md] in [Docs], before the
    file [b.md] in the sorted order. *)
Definition dir_first_fs : filesystem :=
  [ (lit "/repo", Dir [lit "tools"; lit "Docs"]);
    (sample_docs, Dir [lit "b.md"; lit "a.md"]);
    (lit "/repo/Docs/a.md", Dir []);
    (lit "/repo/Docs/b.md", File (bytes_of (lit "# B" ++ nl ++ lit "text"))) ].

(** And with the directory after the file. *)
Definition dir_second_fs : filesystem :=
  [ (lit "/repo", Dir [lit "tools"; lit "Docs"]);
    (sample_docs, Dir [lit "b.md"; lit "a.md"]);
    (lit "/repo/Docs/a.md", File (bytes_of (lit "# A" ++ nl ++ lit "text")));
    (lit "/repo/Docs/b.md", Dir []) ].

(** A checkout whose [Docs] is empty, and one without [Docs]. *)
Definition empty_docs_fs : filesystem :=
  [ (lit "/repo", Dir [lit "tools"; lit "Docs"]); (sample_docs, Dir []) ].

Definition no_docs_fs : filesystem := [ (lit "/repo", Dir [lit "tools"]) ].

(** ** The progress bar

    Lines 44 and 45 of [print_progress]: the bar it writes, with [//] the
    floor division of integers and a repetition by a negative count empty.
    The percentage beside it is a formatted float and is not modelled. *)
Definition progress_bar (current total length : nat) (fill : codepoint) : str :=
  let filled_length := (length * current) / total in
  repeat fill filled_length ++ repeat 45%N (length - filled_length).

(** The defaults of [length] and [fill], which every call of the script
    uses. *)
Definition BAR_LENGTH : nat := 50.
Definition BAR_FILL : codepoint := 9608%N.

(** ** Notions of the further properties *)

(** The horizontal rule that closes every section. *)
Definition RULE : str := lit "---" ++ nl ++ nl.

(** A Unicode scalar value: a code point that is no surrogate. *)
Definition is_scalar (c : codepoint) : bool :=
  (c <? 1114112)%N && negb (is_surrogate c).

(** A code point of a [str]. *)
Definition is_code_point (c : codepoint) : bool := (c <? 1114112)%N.

Definition has_no (c : codepoint) (s : str) : bool := forallb (is_not c) s.

(** * Properties *)

(** ** The model on small inputs *)

Example lower_README : @lower ascii_only (lit "README.MD") = lit "readme.md".
Proof. reflexivity. Qed.

Example title_v2x : @title ascii_only (lit "my notes v2x") = lit "My Notes V2X".
Proof. reflexivity. Qed.

Example strip_spaces : strip (lit "  Hello World  ") = lit "Hello World".
Proof. reflexivity. Qed.

Example splitext_dotfile : splitext (lit ".bashrc") = (lit ".bashrc", []).
Proof. reflexivity. Qed.

Example dirname_twice :
  dirname (dirname sample_script) = lit "/repo" /\
  path_join (lit "/repo") (lit "Docs") = sample_docs.
Proof. split; reflexivity. Qed.

Example utf8_strict :
  python_decode UTF8 [xc3; xa9] = Some [233%N] /\
  python_decode UTF8 [xc0; x80] = None /\
  python_decode UTF8 [xed; xa0; x80] = None /\
  python_decode Windows1252 [x81] = None /\
  python_decode UTF8 [x61; x0d; x0a; x62] = Some (lit "a" ++ nl ++ lit "b").
Proof. repeat split; reflexivity. Qed.

(** [\s+] runs over line breaks: after a line of [#] and blanks the title
    is taken from the next line that is not blank, and a last line of [#] and
    one blank is no heading. *)
Example heading_over_line_break :
  search_heading true (lit "# " ++ nl ++ lit "next") = Some (lit "next") /\
  search_heading true (lit "#" ++ nl ++ lit "next") = Some (lit "next") /\
  search_heading true (lit "# ") = None /\
  search_heading true (lit "#  ") = Some (lit " ").
Proof. repeat split; reflexivity. Qed.

(** The lines of a text, joined by line feeds, are the text. *)
Lemma lines_join (s : str) : join nl (lines s) = s.
Proof.
  unfold lines, line_starts. cbn [map].
  induction s as [|c s IH]; [reflexivity|].
  cbn [first_line after_line_feeds]. destruct (c =? LF)%N eqn:Hc.
  - apply N.eqb_eq in Hc. subst c. cbn [map].
    change (join nl ([] :: first_line s :: map first_line (after_line_feeds s)))
      with (nl ++ join nl (first_line s :: map first_line (after_line_feeds s))).
    now rewrite IH.
  - destruct (map first_line (after_line_feeds s)) as [|l ls].
    + cbn [join] in *. now rewrite IH.
    + change (join nl ((c :: first_line s) :: l :: ls))
        with (c :: (first_line s ++ nl ++ join nl (l :: ls))).
      f_equal. exact IH.
Qed.

(** ** The order of the sort *)

Lemma str_leb_refl (a : str) : str_leb a a = true.
Proof.
  induction a as [|x a IH]; simpl; [reflexivity|].
  rewrite N.ltb_irrefl, N.eqb_refl. exact IH.
Qed.

Lemma str_leb_total (a b : str) : str_leb a b = true \/ str_leb b a = true.
Proof.
  revert b. induction a as [|x a IH]; intros [|y b]; simpl; auto.
  destruct (N.ltb_spec x y) as [Hxy|Hxy]; [now left|].
  destruct (N.ltb_spec y x) as [Hyx|Hyx]; [now right|].
  assert (x = y) by lia. subst y. rewrite N.eqb_refl. apply IH.
Qed.

Lemma str_leb_trans (a b c : str) :
  str_leb a b = true -> str_leb b c = true -> str_leb a c = true.
Proof.
  revert b c. induction a as [|x a IH]; intros [|y b] [|z c]; simpl; auto;
    try discriminate.
  destruct (N.ltb_spec x y) as [Hxy|Hxy].
  - intros _. destruct (N.ltb_spec y z) as [Hyz|Hyz].
    + intros _. destruct (N.ltb_spec x z); [reflexivity|lia].
    + destruct (N.eqb_spec y z) as [->|]; [|discriminate].
      intros _. destruct (N.ltb_spec x z); [reflexivity|lia].
  - destruct (N.eqb_spec x y) as [->|]; [|discriminate].
    intros Hab. destruct (N.ltb_spec y z) as [Hyz|Hyz]; [reflexivity|].
    destruct (N.eqb_spec y z) as [->|]; [|discriminate].
    apply IH. exact Hab.
Qed.

Lemma str_leb_antisym (a b : str) :
  str_leb a b = true -> str_leb b a = true -> a = b.
Proof.
  revert b. induction a as [|x a IH]; intros [|y b]; simpl; auto;
    try discriminate.
  destruct (N.ltb_spec x y) as [Hxy|Hxy].
  - destruct (N.ltb_spec y x); [lia|].
    destruct (N.eqb_spec y x); [lia|discriminate].
  - destruct (N.eqb_spec x y) as [->|]; [|discriminate].
    rewrite N.ltb_irrefl, N.eqb_refl. intros H1 H2. f_equal. now apply IH.
Qed.

Lemma insert_sorted_perm (x : str) (l : list str) :
  Permutation (x :: l) (insert_sorted x l).
Proof.
  induction l as [|y l IH]; simpl; [reflexivity|].
  destruct (str_leb x y); [reflexivity|].
  rewrite perm_swap. now constructor.
Qed.

Lemma sort_perm (l : list str) : Permutation l (sort l).
Proof.
  induction l as [|x l IH]; simpl; [constructor|].
  rewrite <- insert_sorted_perm. now constructor.
Qed.

Lemma insert_sorted_Forall (P : str -> Prop) (x : str) (l : list str) :
  P x -> Forall P l -> Forall P (insert_sorted x l).
Proof.
  intros Hx Hl. apply (Permutation_Forall (insert_sorted_perm x l)).
  now constructor.
Qed.

Lemma insert_sorted_sorted (x : str) (l : list str) :
  StronglySorted str_le l -> StronglySorted str_le (insert_sorted x l).
Proof.
  induction 1 as [|y l Hl IH Hy]; simpl.
  - repeat constructor.
  - destruct (str_leb x y) eqn:Hxy.
    + constructor; [now constructor|].
      constructor; [exact Hxy|].
      eapply Forall_impl; [|exact Hy].
      intros z Hz. eapply str_leb_trans; eassumption.
    + constructor; [exact IH|].
      apply insert_sorted_Forall; [|exact Hy].
      destruct (str_leb_total x y) as [H|H]; [congruence|exact H].
Qed.

Lemma sort_sorted (l : list str) : StronglySorted str_le (sort l).
Proof.
  induction l as [|x l IH]; simpl; [constructor|].
  now apply insert_sorted_sorted.
Qed.

(** ** Discovery *)

Lemma path_exists_lookup (fs : filesystem) (p : str) :
  path_exists fs p = true <-> exists n, fs_lookup fs p = Some n.
Proof.
  unfold path_exists. destruct (fs_lookup fs p) as [n|].
  - split; [eauto|reflexivity].
  - split; [discriminate|intros [n Hn]; discriminate].
Qed.

(** C5. For an existing directory whose listing holds N names ending in
    [.md] without regard to case and M other names, [find_markdown_files]
    returns N paths, the names that match joined to the directory, in
    ascending lexicographic order; for a directory that does not exist it
    raises [FileNotFoundError]. *)
Theorem find_markdown_files_sorted_matches
        {ud : UnicodeData} (fs : filesystem) (directory : str) :
  (forall names N M,
      fs_lookup fs directory = Some (Dir names) ->
      N = List.length (filter is_markdown names) ->
      M = List.length (filter (fun file => negb (is_markdown file)) names) ->
      exists files,
        find_markdown_files fs directory = Ok files /\
        List.length files = N /\
        N + M = List.length names /\
        Permutation files (map (path_join directory) (filter is_markdown names)) /\
        StronglySorted str_le files) /\
  (fs_lookup fs directory = None ->
   find_markdown_files fs directory =
     Raise (mk_exn FileNotFoundError (lit "Directory not found: " ++ directory))).
Proof.
  split.
  - intros names N M Hdir -> ->.
    exists (sort (map (path_join directory) (filter is_markdown names))).
    unfold find_markdown_files, path_exists, listdir. rewrite Hdir. simpl.
    split; [reflexivity|]. split; [|split; [|split]].
    + rewrite <- (Permutation_length (sort_perm _)). apply length_map.
    + rewrite filter_length. reflexivity.
    + symmetry. apply sort_perm.
    + apply sort_sorted.
  - intros Hnone. unfold find_markdown_files, path_exists. rewrite Hnone.
    reflexivity.
Qed.

Lemma find_markdown_files_sorted_matches_witness :
  exists files,
    @find_markdown_files ascii_only sample_fs sample_docs = Ok files /\
    List.length files = 3 /\
    3 + 1 = List.length sample_names /\
    Permutation files
      (map (path_join sample_docs) (filter (@is_markdown ascii_only) sample_names)) /\
    StronglySorted str_le files.
Proof.
  destruct (@find_markdown_files_sorted_matches ascii_only sample_fs sample_docs)
    as [Hdir _].
  apply (Hdir sample_names 3 1); reflexivity.
Defined.

(** ** Reader *)

Section ReaderFacts.
Context {ud : UnicodeData} {cd : Codecs}.

Lemma open_read_file (fs : filesystem) (p : str) (data : list byte)
      (enc : encoding) :
  fs_lookup fs p = Some (File data) ->
  open_read fs p enc =
    match decode enc data with
    | Some text => Ok text
    | None => Raise (mk_exn UnicodeDecodeError [])
    end.
Proof. intros H. unfold open_read. now rewrite H. Qed.

Lemma try_encodings_first_decoding (fs : filesystem) (p : str)
      (data : list byte) (encodings : list encoding) :
  fs_lookup fs p = Some (File data) ->
  try_encodings fs p encodings =
    match first_decoding encodings data with
    | Some text => Ok text
    | None =>
        Raise (mk_exn TypeError
                 (lit "function takes exactly 5 arguments (1 given)"))
    end.
Proof.
  intros H. induction encodings as [|enc rest IH]; [reflexivity|].
  cbn [try_encodings first_decoding]. rewrite (open_read_file _ _ _ enc H).
  destruct (decode enc data); [reflexivity|exact IH].
Qed.

Lemma read_file_content_file (fs : filesystem) (p : str) (data : list byte) :
  fs_lookup fs p = Some (File data) ->
  read_file_content fs p =
    match first_decoding [UTF8; Latin1; Windows1252; ASCII] data with
    | Some text => Ok text
    | None =>
        Raise (mk_exn TypeError
                 (lit "function takes exactly 5 arguments (1 given)"))
    end.
Proof.
  intros H. unfold read_file_content, path_exists. rewrite H.
  cbn [negb]. unfold ENCODING. rewrite (open_read_file _ _ _ UTF8 H).
  change (first_decoding [UTF8; Latin1; Windows1252; ASCII] data)
    with (match decode UTF8 data with
          | Some text => Some text
          | None => first_decoding [Latin1; Windows1252; ASCII] data
          end).
  destruct (decode UTF8 data); [reflexivity|].
  cbn [is_UnicodeDecodeError exn_class].
  apply (try_encodings_first_decoding _ _ _ _ H).
Qed.

Lemma first_decoding_None (encodings : list encoding) (data : list byte) :
  first_decoding encodings data = None ->
  forall enc, In enc encodings -> decode enc data = None.
Proof.
  induction encodings as [|e rest IH]; intros Hnone enc Hin; [easy|].
  cbn [first_decoding] in Hnone.
  destruct (decode e data) eqn:He; [discriminate|].
  destruct Hin as [<-|Hin]; [exact He|now apply IH].
Qed.
End ReaderFacts.

(** C7. On a file, [read_file_content] returns the text of the first of
    UTF-8, Latin-1, Windows-1252 and ASCII, tried in that order, that decodes
    the bytes; it raises only if none of the four does. This holds whatever
    the codecs are. *)
Theorem read_file_content_first_success
        {ud : UnicodeData} {cd : Codecs}
        (fs : filesystem) (file_path : str) (data : list byte) :
  fs_lookup fs file_path = Some (File data) ->
  (forall text,
      first_decoding [UTF8; Latin1; Windows1252; ASCII] data = Some text ->
      read_file_content fs file_path = Ok text) /\
  (forall e,
      read_file_content fs file_path = Raise e ->
      forall enc, In enc [UTF8; Latin1; Windows1252; ASCII] ->
                  decode enc data = None).
Proof.
  intros H. rewrite (read_file_content_file _ _ _ H). split.
  - intros text ->. reflexivity.
  - intros e He.
    destruct (first_decoding [UTF8; Latin1; Windows1252; ASCII] data) eqn:Hd;
      [discriminate|].
    now apply first_decoding_None.
Qed.

Lemma read_file_content_first_success_witness :
  @read_file_content ascii_only python_codecs sample_fs (lit "/repo/Docs/zeta.MD")
  = Ok (lit "caf" ++ [233%N]).
Proof.
  destruct (@read_file_content_first_success ascii_only python_codecs sample_fs
              (lit "/repo/Docs/zeta.MD") (bytes_of (lit "caf" ++ [233%N]))
              eq_refl) as [Hok _].
  apply Hok. reflexivity.
Defined.

(** The Latin-1 codec has a text for every sequence of bytes. *)
Lemma latin1_total (data : list byte) :
  python_decode Latin1 data = Some (universal_newlines (map Byte.to_N data)).
Proof. reflexivity. Qed.

(** ** The heading pattern *)

Lemma re_star_greedy {R : Type} (cls : codepoint -> bool)
      (k : str -> str -> option R) (xs s : str) :
  forall matched r,
    forallb cls xs = true ->
    match s with [] => True | d :: _ => cls d = false end ->
    k (matched ++ xs) s = Some r ->
    re_star cls k matched (xs ++ s) = Some r.
Proof.
  induction xs as [|x xs IH]; intros matched r Hxs Hs Hk.
  - rewrite app_nil_r in Hk. destruct s as [|d s']; simpl; [exact Hk|].
    now rewrite Hs.
  - simpl in Hxs. apply andb_prop in Hxs as [Hx Hxs]. simpl. rewrite Hx.
    rewrite (IH (matched ++ [x]) r Hxs Hs); [reflexivity|].
    now rewrite <- app_assoc.
Qed.

Lemma is_space_LF : is_space LF = true.
Proof. reflexivity. Qed.

Lemma not_space_re_dot (c : codepoint) : is_space c = false -> re_dot c = true.
Proof.
  intros Hc. unfold re_dot. destruct (N.eqb_spec c LF) as [->|]; [|reflexivity].
  now rewrite is_space_LF in Hc.
Qed.

Lemma first_line_split (s : str) :
  exists tail,
    s = first_line s ++ tail /\ at_eol tail = true /\
    forallb re_dot (first_line s) = true.
Proof.
  induction s as [|c s (tail & Hs & Htail & Hdot)]; [now exists []|].
  cbn [first_line]. destruct (c =? LF)%N eqn:Hc.
  - exists (c :: s). cbn. now rewrite Hc.
  - exists tail. cbn. unfold re_dot at 1. rewrite Hc.
    repeat split; [now f_equal|exact Htail|exact Hdot].
Qed.

Lemma at_eol_stops (tail : str) :
  at_eol tail = true -> match tail with [] => True | d :: _ => re_dot d = false end.
Proof.
  destruct tail as [|d t]; [easy|]. simpl. unfold re_dot. now intros ->.
Qed.

(** At a line of [#], whitespace and a remainder that starts with a
    character that is no whitespace, the pattern matches and group 1 is that
    remainder. *)
Lemma heading_at_proper (s ws rest : str) (c : codepoint) :
  first_line s = HASH :: ws ++ c :: rest ->
  ws <> [] -> forallb is_space ws = true -> is_space c = false ->
  heading_at s = Some (c :: rest).
Proof.
  intros Hline Hne Hws Hc.
  destruct (first_line_split s) as (tail & Hs & Htail & Hdot).
  rewrite Hline in Hs, Hdot. rewrite Hs.
  destruct ws as [|w ws]; [contradiction|].
  simpl in Hws. apply andb_prop in Hws as [Hw Hws].
  unfold heading_at. cbn [app re_char]. rewrite N.eqb_refl.
  cbn [re_plus]. rewrite Hw.
  assert (Hrest : forallb re_dot rest = true).
  { cbn [forallb] in Hdot. apply andb_prop in Hdot as [_ Hdot].
    rewrite forallb_app in Hdot. apply andb_prop in Hdot as [_ Hdot].
    cbn [forallb] in Hdot. now apply andb_prop in Hdot as [_ Hdot]. }
  replace (ws ++ c :: rest) with (ws ++ (c :: rest)) by reflexivity.
  rewrite <- app_assoc.
  apply re_star_greedy; [exact Hws|exact Hc|].
  cbn [app re_plus]. rewrite (not_space_re_dot _ Hc).
  apply re_star_greedy; [exact Hrest|now apply at_eol_stops|].
  now rewrite Htail.
Qed.

Lemma heading_at_begins (s : str) :
  begins_heading s = false -> heading_at s = None.
Proof.
  destruct s as [|c [|d s]]; unfold heading_at; simpl; try reflexivity.
  - now destruct (c =? HASH)%N.
  - destruct (c =? HASH)%N; [|reflexivity]. simpl. now intros ->.
Qed.

Lemma search_heading_skip (s : str) :
  forall at_bol pre t post,
    starts_from at_bol s = pre ++ t :: post ->
    no_heading pre = true ->
    search_heading at_bol s = search_heading true t.
Proof.
  induction s as [|c s IH]; intros at_bol pre t post Hsplit Hpre.
  - destruct at_bol; cbn in Hsplit.
    + destruct pre as [|p [|q pre]]; cbn in Hsplit; try discriminate.
      now injection Hsplit as <-.
    + now destruct pre.
  - assert (Hnext : forall pre',
               after_line_feeds (c :: s) = pre' ++ t :: post ->
               no_heading pre' = true ->
               search_heading (c =? LF)%N s = search_heading true t).
    { intros pre' H Hpre'. apply (IH _ pre' t post); [|exact Hpre'].
      unfold starts_from. cbn in H. now destruct (c =? LF)%N. }
    destruct at_bol; unfold starts_from in Hsplit.
    + destruct pre as [|p pre]; cbn [app] in Hsplit.
      * now injection Hsplit as <-.
      * injection Hsplit as <- Hsplit.
        unfold no_heading in Hpre. cbn [forallb] in Hpre.
        apply andb_prop in Hpre as [Hp Hpre].
        cbn [search_heading]. rewrite heading_at_begins.
        -- now apply (Hnext pre).
        -- now destruct (begins_heading (c :: s)).
    + cbn [app search_heading]. now apply (Hnext pre).
Qed.

Lemma search_heading_none (s : str) :
  forall at_bol,
    no_heading (starts_from at_bol s) = true ->
    search_heading at_bol s = None.
Proof.
  induction s as [|c s IH]; intros at_bol H.
  - destruct at_bol; [|reflexivity]. now cbn.
  - assert (Hnext : search_heading (c =? LF)%N s = None).
    { apply IH. unfold starts_from in *. unfold no_heading in *.
      rewrite forallb_app in H. apply andb_prop in H as [_ H].
      cbn in H. destruct (c =? LF)%N; exact H. }
    destruct at_bol; [|exact Hnext].
    cbn [search_heading]. rewrite heading_at_begins; [exact Hnext|].
    unfold no_heading, starts_from in H. cbn [app forallb] in H.
    apply andb_prop in H as [H _].
    now destruct (begins_heading (c :: s)).
Qed.

Lemma search_heading_here (s g : str) :
  heading_at s = Some g -> search_heading true s = Some g.
Proof. intros H. destruct s; cbn [search_heading]; now rewrite H. Qed.

Lemma lstrip_spaces (ws s : str) :
  forallb is_space ws = true -> lstrip (ws ++ s) = lstrip s.
Proof.
  induction ws as [|w ws IH]; [reflexivity|]. cbn [forallb app lstrip].
  intros H. apply andb_prop in H as [-> H]. now apply IH.
Qed.

(** ** Title extraction *)

Lemma str_eqb_same (p : str) : str_eqb p p = true.
Proof. unfold str_eqb. now destruct (list_eq_dec N.eq_dec p p). Qed.

(** The title at a line start: when the pattern can start at no earlier line
    start and the line at [s] is [#], whitespace and a remainder that begins
    with a character that is no whitespace, the title is that remainder,
    trimmed. *)
Lemma get_file_title_at_line_start
      {ud : UnicodeData} (file_path content : str)
      (pre : list str) (s : str) (post : list str)
      (ws : str) (c : codepoint) (rest : str) :
  line_starts content = pre ++ s :: post ->
  no_heading pre = true ->
  first_line s = HASH :: ws ++ c :: rest ->
  ws <> [] -> forallb is_space ws = true -> is_space c = false ->
  get_file_title file_path content = strip (ws ++ c :: rest).
Proof.
  intros Hsplit Hpre Hline Hne Hws Hc. unfold get_file_title.
  rewrite (search_heading_skip content true pre s post Hsplit Hpre).
  rewrite (search_heading_here _ _
             (heading_at_proper _ _ _ _ Hline Hne Hws Hc)).
  unfold strip. now rewrite lstrip_spaces.
Qed.

(** Where the pattern can start, the line is a heading line or [#] alone. *)
Lemma begins_heading_line (s : str) :
  begins_heading s = true -> is_plain_line (first_line s) = false.
Proof.
  unfold is_plain_line, is_heading_line, is_bare_hash.
  destruct s as [|c [|d r]]; cbn [begins_heading]; try discriminate.
  intros H. apply andb_prop in H as [Hc Hd].
  apply N.eqb_eq in Hc. subst c. cbn [first_line].
  change (HASH =? LF)%N with false. cbv iota.
  destruct (d =? LF)%N.
  - now rewrite str_eqb_same, andb_false_r.
  - change (HASH =? HASH)%N with true. now rewrite Hd.
Qed.

Lemma plain_lines_no_heading (pre : list str) :
  forallb is_plain_line (map first_line pre) = true -> no_heading pre = true.
Proof.
  unfold no_heading. rewrite !forallb_forall. intros H s Hs.
  specialize (H (first_line s) (in_map _ _ _ Hs)).
  destruct (begins_heading s) eqn:Hb; [|reflexivity].
  now rewrite (begins_heading_line _ Hb) in H.
Qed.

(** C3, as the code has it. Take the first line of the text that begins with
    [#] followed by whitespace, when no line before it is [#] alone. If that
    line holds, after that whitespace, a character that is no whitespace,
    [get_file_title] returns the remainder of the line after the [#],
    trimmed, wherever in the text the line is; a text whose first such line
    is [# Hello World] has the title [Hello World]. *)
Theorem get_file_title_first_heading
        {ud : UnicodeData} (file_path content : str)
        (before : list str) (line : str) (after : list str) :
  lines content = before ++ line :: after ->
  forallb is_plain_line before = true ->
  (forall (ws : str) (c : codepoint) (rest : str),
      line = HASH :: ws ++ c :: rest ->
      ws <> [] -> forallb is_space ws = true -> is_space c = false ->
      get_file_title file_path content = strip (ws ++ c :: rest)) /\
  (line = lit "# Hello World" ->
   get_file_title file_path content = lit "Hello World").
Proof.
  intros Hlines Hbefore. unfold lines in Hlines.
  apply map_eq_app in Hlines as (pre & tail & Hsplit & Hpre & Htail).
  apply map_eq_cons in Htail as (s & post & -> & Hs & _).
  subst before line.
  assert (Hgeneral : forall ws c rest,
             first_line s = HASH :: ws ++ c :: rest ->
             ws <> [] -> forallb is_space ws = true -> is_space c = false ->
             get_file_title file_path content = strip (ws ++ c :: rest)).
  { intros ws c rest Hline Hne Hws Hc.
    exact (get_file_title_at_line_start file_path content pre s post ws c rest
             Hsplit (plain_lines_no_heading _ Hbefore) Hline Hne Hws Hc). }
  split; [exact Hgeneral|].
  intros Hline.
  apply (Hgeneral (lit " ") 72%N (lit "ello World"));
    [exact Hline|discriminate|reflexivity|reflexivity].
Qed.

Lemma get_file_title_first_heading_witness :
  @get_file_title ascii_only (lit "/repo/Docs/doc.md")
    (lit "intro" ++ nl ++ lit "# Hello World" ++ nl ++ lit "more")
  = lit "Hello World".
Proof.
  destruct (@get_file_title_first_heading ascii_only (lit "/repo/Docs/doc.md")
              (lit "intro" ++ nl ++ lit "# Hello World" ++ nl ++ lit "more")
              [lit "intro"] (lit "# Hello World") [lit "more"]
              eq_refl eq_refl) as [_ Hhello].
  apply Hhello. reflexivity.
Defined.

(** C3, as stated, fails: a text can hold the line [# Hello World] and have
    another title, because an earlier heading comes first. *)
Lemma get_file_title_later_heading_ignored :
  In (lit "# Hello World") (lines (lit "# First" ++ nl ++ lit "# Hello World")) /\
  @get_file_title ascii_only (lit "/repo/Docs/doc.md")
    (lit "# First" ++ nl ++ lit "# Hello World")
  <> lit "Hello World".
Proof.
  split.
  - right. left. reflexivity.
  - vm_compute. discriminate.
Qed.

(** *** File names *)

Lemma rfind_from_absent (c : codepoint) (s : str) :
  forall i last, forallb (is_not c) s = true -> rfind_from c s i last = last.
Proof.
  induction s as [|x s IH]; intros i last H; [reflexivity|].
  cbn [forallb] in H. apply andb_prop in H as [Hx H]. cbn [rfind_from].
  unfold is_not in Hx. destruct (x =? c)%N; [discriminate|]. now apply IH.
Qed.

Lemma rfind_from_last (c : codepoint) (a b : str) :
  forall i last,
    forallb (is_not c) b = true ->
    rfind_from c (a ++ c :: b) i last = (i + Z.of_nat (List.length a))%Z.
Proof.
  induction a as [|x a IH]; intros i last Hb.
  - cbn [app rfind_from List.length]. rewrite N.eqb_refl.
    rewrite rfind_from_absent by exact Hb. lia.
  - cbn [app rfind_from List.length]. rewrite IH by exact Hb. lia.
Qed.

(** A string has no [c], or a last one. *)
Lemma last_occurrence (c : codepoint) (s : str) :
  forallb (is_not c) s = true \/
  exists a b, s = a ++ c :: b /\ forallb (is_not c) b = true.
Proof.
  induction s as [|x s [IH|(a & b & -> & Hb)]].
  - now left.
  - destruct (N.eqb_spec x c) as [->|Hx].
    + right. now exists [], s.
    + left. cbn [forallb]. rewrite IH. unfold is_not.
      now destruct (N.eqb_spec x c).
  - right. now exists (x :: a), b.
Qed.

Lemma basename_no_sep (p : str) : forallb (is_not SEP) (basename p) = true.
Proof.
  unfold basename, rfind.
  destruct (last_occurrence SEP p) as [H|(a & b & -> & Hb)].
  - rewrite rfind_from_absent by exact H. exact H.
  - rewrite rfind_from_last by exact Hb.
    replace (Z.to_nat (0 + Z.of_nat (List.length a) + 1))
      with (List.length a + 1) by lia.
    replace (a ++ SEP :: b) with ((a ++ [SEP]) ++ b)
      by now rewrite <- app_assoc.
    rewrite skipn_app, skipn_all2 by (rewrite length_app; simpl; lia).
    rewrite length_app. cbn [List.length].
    replace (List.length a + 1 - (List.length a + 1)) with 0 by lia.
    exact Hb.
Qed.

(** [os.path.splitext] on a file name with an extension: the name is cut at
    its last dot. *)
Lemma splitext_stem (name stem ext : str) :
  name = stem ++ EXTSEP :: ext ->
  forallb (is_not SEP) name = true ->
  forallb (is_not EXTSEP) ext = true ->
  forallb (fun c => (c =? EXTSEP)%N) stem = false ->
  splitext name = (stem, EXTSEP :: ext).
Proof.
  intros -> Hsep Hext Hstem. unfold splitext, rfind.
  rewrite (rfind_from_absent SEP) by exact Hsep.
  rewrite rfind_from_last by exact Hext.
  replace (0 + Z.of_nat (List.length stem) >? -1)%Z with true
    by (symmetry; apply Z.gtb_lt; lia).
  unfold slice.
  replace (Z.to_nat (-1 + 1)) with 0 by reflexivity.
  replace (Z.to_nat (0 + Z.of_nat (List.length stem))) with (List.length stem)
    by lia.
  rewrite Nat.sub_0_r. cbn [skipn].
  rewrite firstn_app, firstn_all, Nat.sub_diag. cbn [firstn].
  rewrite app_nil_r, Hstem.
  rewrite skipn_app, skipn_all, Nat.sub_diag. reflexivity.
Qed.

(** The title from the file name: when the pattern can start at no line
    start of the text, the extension is cut off the base name, hyphens and
    underscores become spaces, and the words are title-cased. *)
Lemma get_file_title_of_stem
      {ud : UnicodeData} (file_path content : str) (stem ext : str) :
  no_heading (line_starts content) = true ->
  basename file_path = stem ++ EXTSEP :: ext ->
  forallb (is_not EXTSEP) ext = true ->
  forallb (fun c => (c =? EXTSEP)%N) stem = false ->
  get_file_title file_path content =
    title (replace 95%N (lit " ") (replace 45%N (lit " ") stem)).
Proof.
  intros Hnone Hname Hext Hstem.
  assert (Hsearch : search_heading true content = None)
    by (apply search_heading_none; exact Hnone).
  unfold get_file_title. rewrite Hsearch.
  rewrite (splitext_stem _ stem ext Hname (basename_no_sep _) Hext Hstem).
  reflexivity.
Qed.

Example get_file_title_of_stem_notes :
  @get_file_title ascii_only (lit "/repo/Docs/my-notes_v2.md")
    (lit "first" ++ nl ++ lit "second")
  = lit "My Notes V2".
Proof.
  exact (@get_file_title_of_stem ascii_only
           (lit "/repo/Docs/my-notes_v2.md")
           (lit "first" ++ nl ++ lit "second") (lit "my-notes_v2") (lit "md")
           eq_refl eq_refl eq_refl eq_refl).
Qed.

(** C4. The claim fails in the code for a text with a line that is [#]
    alone. The text [#], line feed, [next] has the two lines [#] and [next],
    neither of which begins with [#] followed by whitespace; for the file
    [my-notes_v2.md], [get_file_title] returns [next], the line after the
    [#], and not [My Notes V2]: [\s+] of line 124 runs over the line feed.
    The text [next] alone gives [My Notes V2], and the test of line 178 for
    a leading heading, [startswith('# ')], finds none in the first text.
    So it is not true that every text without a line beginning with [#]
    followed by whitespace gets its title from the file name. *)
Theorem get_file_title_bare_hash_line {ud : UnicodeData} :
  let file_path := lit "/repo/Docs/my-notes_v2.md" in
  let content := lit "#" ++ nl ++ lit "next" in
  lines content = [lit "#"; lit "next"] /\
  existsb is_heading_line (lines content) = false /\
  get_file_title file_path content = lit "next" /\
  get_file_title file_path (lit "next") = lit "My Notes V2" /\
  startswith (lstrip content) (lit "# ") = false /\
  ~ (forall (path text : str),
        existsb is_heading_line (lines text) = false ->
        basename path = lit "my-notes_v2.md" ->
        get_file_title path text = lit "My Notes V2").
Proof.
  cbv zeta. repeat split; try reflexivity.
  intros Hall.
  specialize (Hall (lit "/repo/Docs/my-notes_v2.md")
                (lit "#" ++ nl ++ lit "next") eq_refl eq_refl).
  discriminate Hall.
Qed.

(** ** Table of contents *)

Lemma replace_one (old new : codepoint) (s : str) :
  replace old [new] s = map (fun c => if (c =? old)%N then new else c) s.
Proof.
  unfold replace. induction s as [|c s IH]; [reflexivity|].
  cbn [flat_map map]. rewrite IH. now destruct (c =? old)%N.
Qed.

Lemma replace_none (old : codepoint) (s : str) :
  replace old [] s = filter (is_not old) s.
Proof.
  unfold replace, is_not. induction s as [|c s IH]; [reflexivity|].
  cbn [flat_map filter]. rewrite IH. now destruct (c =? old)%N.
Qed.

Lemma filter_twice {A : Type} (p q : A -> bool) (l : list A) :
  filter q (filter p l) = filter (fun x => p x && q x) l.
Proof.
  induction l as [|x l IH]; [reflexivity|]. cbn [filter].
  destruct (p x); cbn [filter andb]; [destruct (q x)|]; now rewrite IH.
Qed.

(** C6, as the code has it. The anchor of the entry of a file that was read
    is its title in lower case with every space turned into a hyphen and
    every full stop and colon removed; no other character is removed. *)
Theorem toc_anchor_drops_stops_and_colons
        {ud : UnicodeData} {cd : Codecs}
        (fs : filesystem) (i : nat) (file_path content : str) :
  read_file_content fs file_path = Ok content ->
  let title := get_file_title file_path content in
  let anchor :=
    filter (fun c => is_not 46%N c && is_not 58%N c)
           (map (fun c => if (c =? 32)%N then 45%N else c) (lower title)) in
  toc_anchor title = anchor /\
  toc_entry fs i file_path =
    str_of_nat (i + 1) ++ lit ". [" ++ title ++ lit "](#" ++ anchor ++ lit ")".
Proof.
  intros Hread title anchor.
  assert (Hanchor : toc_anchor title = anchor).
  { unfold toc_anchor, anchor.
    change (lit "-") with [45%N].
    now rewrite replace_one, !replace_none, filter_twice. }
  split; [exact Hanchor|].
  unfold toc_entry. rewrite Hread. fold title. now rewrite Hanchor.
Qed.

Lemma toc_anchor_drops_stops_and_colons_witness :
  @toc_entry ascii_only python_codecs sample_fs 1 (lit "/repo/Docs/doc.md")
  = lit "2. [Title](#title)".
Proof.
  apply (@toc_anchor_drops_stops_and_colons ascii_only python_codecs sample_fs 1
           (lit "/repo/Docs/doc.md")
           (lit "# Title" ++ nl ++ nl ++ lit "Body text.") eq_refl).
Defined.

(** C6, as stated, fails: punctuation other than the full stop and the colon
    stays in the anchor. *)
Lemma toc_anchor_keeps_punctuation :
  @toc_anchor ascii_only (lit "Hello, World!") = lit "hello,-world!" /\
  existsb (fun c => is_punctuation c && is_not 45%N c)
          (@toc_anchor ascii_only (lit "Hello, World!")) = true.
Proof. split; reflexivity. Qed.

(** ** Combiner *)

Section CombinerFacts.
Context {ud : UnicodeData} {cd : Codecs}.

(** The round trip, for every file with that text and every time: the
    heading is there once, the body is [Body text.], and the end marker
    reads [{filename}] where the name of the file should be. *)
Lemma combine_round_trip (fs : filesystem) (timestamp file_path : str) :
  read_file_content fs file_path = Ok round_trip_body ->
  combine_markdown_files fs timestamp [file_path]
  = Ok (round_trip_document timestamp (basename file_path)).
Proof.
  intros Hread. unfold combine_markdown_files.
  cbn [process_files List.length]. unfold process_file.
  cbn [print_progress Nat.eqb]. rewrite Hread.
  cbn [print_progress Nat.eqb List.length combined_content].
  unfold header_and_toc. cbn [toc_entries]. unfold toc_entry. rewrite Hread.
  f_equal. unfold file_section.
  replace (get_file_title file_path round_trip_body) with (lit "Title")
    by reflexivity.
  unfold round_trip_document.
  cbn [List.concat app]. rewrite !app_nil_r.
  repeat rewrite <- app_assoc. reflexivity.
Qed.

Lemma print_progress_ok (current total : nat) :
  total <> 0 -> print_progress current total = Ok tt.
Proof.
  intros H. unfold print_progress. now destruct total.
Qed.

Lemma process_file_read (fs : filesystem) (total i : nat)
      (file_path content : str) (st : locals) :
  total <> 0 ->
  read_file_content fs file_path = Ok content ->
  process_file fs total i file_path st
  = Ok {| combined_content :=
            combined_content st ++ file_section file_path content;
          filename := Some (basename file_path) |}.
Proof.
  intros Htotal Hread. unfold process_file.
  now rewrite (print_progress_ok i total Htotal), Hread.
Qed.

(** The handler with [filename] bound: the section carries that name,
    which is the name of an earlier file. *)
Lemma process_file_error_bound (fs : filesystem) (total i : nat)
      (file_path name : str) (e : exn) (st : locals) :
  total <> 0 ->
  filename st = Some name ->
  read_file_content fs file_path = Raise e ->
  process_file fs total i file_path st
  = Ok {| combined_content := combined_content st ++ error_section name e;
          filename := Some name |}.
Proof.
  intros Htotal Hname Hread. unfold process_file.
  now rewrite (print_progress_ok i total Htotal), Hread, Hname.
Qed.

(** The handler with [filename] unbound raises itself. *)
Lemma process_file_error_unbound (fs : filesystem) (total i : nat)
      (file_path : str) (e : exn) (st : locals) :
  total <> 0 ->
  filename st = None ->
  read_file_content fs file_path = Raise e ->
  process_file fs total i file_path st = Raise unbound_filename.
Proof.
  intros Htotal Hname Hread. unfold process_file.
  now rewrite (print_progress_ok i total Htotal), Hread, Hname.
Qed.

(** With a first file that cannot be read the combiner returns nothing:
    the handler of the second loop raises [UnboundLocalError]. *)
Lemma combine_aborts (fs : filesystem) (timestamp first : str)
      (rest : list str) (e : exn) :
  read_file_content fs first = Raise e ->
  combine_markdown_files fs timestamp (first :: rest) = Raise unbound_filename.
Proof.
  intros Hread. unfold combine_markdown_files. cbn [process_files].
  rewrite (process_file_error_unbound fs _ 0 first e _); easy.
Qed.
End CombinerFacts.

(** C10. With the codecs of the interpreter, [read_file_content] returns a
    text for every content of an existing file: the UTF-8 text when the bytes
    are UTF-8, the Latin-1 text otherwise. The [raise] after the loop over
    the fallback encodings is never reached, and the second loop of the
    combiner appends the section of the file, not an error section. *)
Theorem read_file_content_total
        {ud : UnicodeData} (fs : filesystem) (file_path : str) (data : list byte) :
  fs_lookup fs file_path = Some (File data) ->
  exists text,
    @read_file_content ud python_codecs fs file_path = Ok text /\
    text = match python_decode UTF8 data with
           | Some utf8_text => utf8_text
           | None => universal_newlines (map Byte.to_N data)
           end /\
    forall total i st,
      total <> 0 ->
      @process_file ud python_codecs fs total i file_path st
      = Ok {| combined_content :=
                combined_content st
                ++ @file_section ud file_path text;
              filename := Some (basename file_path) |}.
Proof.
  intros H.
  assert (Hread : exists text,
             @read_file_content ud python_codecs fs file_path = Ok text /\
             text = match python_decode UTF8 data with
                    | Some utf8_text => utf8_text
                    | None => universal_newlines (map Byte.to_N data)
                    end).
  { rewrite (@read_file_content_file ud python_codecs _ _ _ H).
    cbn [first_decoding decode python_codecs].
    destruct (python_decode UTF8 data) as [t|]; [now exists t|].
    rewrite latin1_total. eexists. split; reflexivity. }
  destruct Hread as (text & Hread & Htext). exists text.
  split; [exact Hread|]. split; [exact Htext|].
  intros total i st Htotal.
  exact (@process_file_read ud python_codecs fs total i file_path text st
           Htotal Hread).
Qed.

Lemma read_file_content_total_witness :
  exists text,
    @read_file_content ascii_only python_codecs sample_fs
      (lit "/repo/Docs/zeta.MD") = Ok text /\
    text = lit "caf" ++ [233%N] /\
    forall total i st,
      total <> 0 ->
      @process_file ascii_only python_codecs sample_fs total i
        (lit "/repo/Docs/zeta.MD") st
      = Ok {| combined_content :=
                combined_content st
                ++ @file_section ascii_only (lit "/repo/Docs/zeta.MD") text;
              filename := Some (lit "zeta.MD") |}.
Proof.
  apply (@read_file_content_total ascii_only sample_fs
           (lit "/repo/Docs/zeta.MD") (bytes_of (lit "caf" ++ [233%N])) eq_refl).
Defined.

(** C1. The code at the file of the round trip: one begin marker with the
    name of the file, the heading [# Title] once, the body [Body text.], and
    one end marker, which reads [{filename}] and not the name of the file;
    line 185 lacks the [f] of the f-string. *)
Theorem round_trip_end_marker_unnamed :
  let out := round_trip_document sample_timestamp (lit "doc.md") in
  @combine_markdown_files ascii_only python_codecs sample_fs sample_timestamp
    [lit "/repo/Docs/doc.md"] = Ok out /\
  occurrences (lit "<!-- BEGIN: doc.md -->") out = 1 /\
  occurrences (lit "# Title" ++ nl) out = 1 /\
  occurrences (nl ++ lit "Body text." ++ nl) out = 1 /\
  occurrences (lit "<!-- END: ") out = 1 /\
  occurrences (lit "<!-- END: {filename} -->") out = 1 /\
  occurrences (lit "<!-- END: doc.md -->") out = 0.
Proof. repeat split; vm_compute; reflexivity. Qed.

(** C2. The code at a directory named like a Markdown file. When it is the
    first of the files the handler of the second loop reads [filename]
    unbound, the combiner raises and the run ends with status 1 and without
    a document. When it comes after a file that was read, the error section
    carries the name of that earlier file. *)
Theorem unreadable_file_not_contained :
  @find_markdown_files ascii_only dir_first_fs sample_docs
  = Ok [lit "/repo/Docs/a.md"; lit "/repo/Docs/b.md"] /\
  @combine_markdown_files ascii_only python_codecs dir_first_fs sample_timestamp
    [lit "/repo/Docs/a.md"; lit "/repo/Docs/b.md"] = Raise unbound_filename /\
  @main ascii_only python_codecs sample_script sample_timestamp sample_date
    dir_first_fs = (dir_first_fs, Ok (Some 1%Z)) /\
  exists out,
    @combine_markdown_files ascii_only python_codecs dir_second_fs
      sample_timestamp [lit "/repo/Docs/a.md"; lit "/repo/Docs/b.md"] = Ok out /\
    occurrences (lit "Error details: Error reading file /repo/Docs/b.md: ") out = 1 /\
    occurrences (lit "<!-- BEGIN: ERROR - a.md -->") out = 1 /\
    occurrences (lit "<!-- BEGIN: ERROR - b.md -->") out = 0.
Proof.
  split; [reflexivity|]. split; [reflexivity|]. split; [reflexivity|].
  eexists. split; [reflexivity|]. repeat split; vm_compute; reflexivity.
Qed.

Lemma find_markdown_files_sorted {ud : UnicodeData}
      (fs : filesystem) (directory : str) (files : list str) :
  find_markdown_files fs directory = Ok files -> StronglySorted str_le files.
Proof.
  unfold find_markdown_files.
  destruct (negb (path_exists fs directory)); [discriminate|].
  destruct (listdir fs directory); [|discriminate].
  intros [= <-]. apply sort_sorted.
Qed.

Section SectionOrder.
Context {ud : UnicodeData} {cd : Codecs}.

(** The second loop from a state in which [filename] holds the base name of
    the last file read so far: it runs to its end and appends, for each file
    in turn, the section of that file. *)
Lemma process_files_sections (fs : filesystem) (total : nat) (files : list str) :
  total <> 0 ->
  forall (i : nat) (st : locals) (before : list str) (other : str)
         (between : list str) (text : str),
    filename st = Some (basename other) ->
    read_file_content fs other = Ok text ->
    Forall (unreadable fs) between ->
    exists st' sections,
      process_files fs total i files st = Ok st' /\
      combined_content st' = combined_content st ++ List.concat sections /\
      List.length sections = List.length files /\
      forall (k : nat) (file_path : str),
        nth_error files k = Some file_path ->
        exists section,
          nth_error sections k = Some section /\
          section_of fs ((before ++ other :: between) ++ firstn k files)
            file_path section.
Proof.
  intros Htotal. induction files as [|path rest IH];
    intros i st before other between text Hname Hother Hbetween.
  - exists st, []. repeat split.
    + cbn. now rewrite app_nil_r.
    + intros [|k] file_path Hk; discriminate Hk.
  - cbn [process_files].
    destruct (read_file_content fs path) as [content|e] eqn:Hread.
    + rewrite (process_file_read fs total i path content st Htotal Hread).
      destruct (IH (S i)
                  {| combined_content :=
                       combined_content st ++ file_section path content;
                     filename := Some (basename path) |}
                  (before ++ other :: between) path [] content
                  eq_refl Hread (Forall_nil _))
        as (st' & sections & Hrun & Hcontent & Hlength & Hall).
      exists st', (file_section path content :: sections).
      split; [exact Hrun|]. split; [|split].
      * rewrite Hcontent. cbn [combined_content List.concat].
        now rewrite app_assoc.
      * cbn [List.length]. now rewrite Hlength.
      * intros [|k] file_path Hk.
        -- injection Hk as <-. eexists. split; [reflexivity|].
           exact (section_of_text fs _ path content Hread).
        -- destruct (Hall k file_path Hk) as (section & Hnth & Hsection).
           exists section. split; [exact Hnth|].
           cbn [firstn]. rewrite <- app_assoc in Hsection. exact Hsection.
    + rewrite (process_file_error_bound fs total i path (basename other) e st
                 Htotal Hname Hread).
      assert (Hbetween' : Forall (unreadable fs) (between ++ [path])).
      { apply Forall_app. split; [exact Hbetween|].
        constructor; [now exists e|constructor]. }
      destruct (IH (S i)
                  {| combined_content :=
                       combined_content st ++ error_section (basename other) e;
                     filename := Some (basename other) |}
                  before other (between ++ [path]) text
                  eq_refl Hother Hbetween')
        as (st' & sections & Hrun & Hcontent & Hlength & Hall).
      exists st', (error_section (basename other) e :: sections).
      split; [exact Hrun|]. split; [|split].
      * rewrite Hcontent. cbn [combined_content List.concat].
        now rewrite app_assoc.
      * cbn [List.length]. now rewrite Hlength.
      * intros [|k] file_path Hk.
        -- injection Hk as <-. eexists. split; [reflexivity|].
           cbn [firstn]. rewrite app_nil_r.
           exact (section_of_error fs _ path e before other between text
                    Hread eq_refl Hother Hbetween).
        -- destruct (Hall k file_path Hk) as (section & Hnth & Hsection).
           exists section. split; [exact Hnth|].
           cbn [firstn].
           replace ((before ++ other :: between) ++ path :: firstn k rest)
             with ((before ++ other :: between ++ [path]) ++ firstn k rest).
           ++ exact Hsection.
           ++ rewrite <- !app_assoc. cbn [app]. rewrite <- app_assoc.
              reflexivity.
Qed.

(** With a first file that is read the combiner returns the header, the
    table of contents and then the sections of the files, in their order. *)
Lemma combine_document (fs : filesystem) (timestamp first content : str)
      (rest : list str) :
  read_file_content fs first = Ok content ->
  exists sections,
    combine_markdown_files fs timestamp (first :: rest)
    = Ok (List.concat (header_and_toc fs timestamp (first :: rest))
          ++ List.concat (List.concat sections)) /\
    sections_in_order fs (first :: rest) sections.
Proof.
  intros Hread. unfold combine_markdown_files.
  set (files := first :: rest).
  assert (Htotal : List.length files <> 0) by discriminate.
  rewrite (print_progress_ok _ _ Htotal).
  unfold files at 2. cbn [process_files].
  rewrite (process_file_read fs _ 0 first content _ Htotal Hread).
  cbn [combined_content].
  destruct (process_files_sections fs (List.length files) rest Htotal 1
              {| combined_content :=
                   header_and_toc fs timestamp files
                   ++ file_section first content;
                 filename := Some (basename first) |}
              [] first [] content eq_refl Hread (Forall_nil _))
    as (st' & sections & Hrun & Hcontent & Hlength & Hall).
  rewrite Hrun. exists (file_section first content :: sections).
  split; [|split].
  - rewrite Hcontent. cbn [combined_content List.concat].
    rewrite !concat_app. now rewrite <- app_assoc.
  - unfold files. cbn [List.length]. now rewrite Hlength.
  - intros [|k] file_path Hk.
    + injection Hk as <-. eexists. split; [reflexivity|].
      exact (section_of_text fs _ first content Hread).
    + destruct (Hall k file_path Hk) as (section & Hnth & Hsection).
      exists section. split; [exact Hnth|exact Hsection].
Qed.

(** The combiner returns a document exactly for a list whose first file is
    read. *)
Lemma combine_returns (fs : filesystem) (timestamp : str) (files : list str) :
  (exists out, combine_markdown_files fs timestamp files = Ok out) <->
  (exists first rest content,
      files = first :: rest /\ read_file_content fs first = Ok content).
Proof.
  split.
  - intros [out Hout]. destruct files as [|first rest]; [discriminate Hout|].
    destruct (read_file_content fs first) as [content|e] eqn:Hread.
    + now exists first, rest, content.
    + rewrite (combine_aborts fs timestamp first rest e Hread) in Hout.
      discriminate Hout.
  - intros (first & rest & content & -> & Hread).
    destruct (combine_document fs timestamp first content rest Hread)
      as (sections & Hout & _).
    eexists. exact Hout.
Qed.
End SectionOrder.

(** C8. The files discovery returns are in ascending order, and every
    document the combiner makes of them is the header, the table of
    contents and then one section per file in that order: the section at
    position [i] begins with the marker [<!-- BEGIN: name -->] that names
    the file at position [i], followed by its title, its source line and its
    text, or, when that file cannot be read, is the error section with the
    message of its exception. The combiner makes a document exactly when
    the first of the files is read. *)
Theorem sections_follow_sorted_files
        {ud : UnicodeData} {cd : Codecs}
        (fs : filesystem) (directory timestamp : str) (files : list str) :
  find_markdown_files fs directory = Ok files ->
  StronglySorted str_le files /\
  (forall out : str,
      combine_markdown_files fs timestamp files = Ok out ->
      exists sections : list (list str),
        out = (lit "# Logbie Framework - Combined Documentation" ++ nl ++ nl)
              ++ (lit "*Generated on: " ++ timestamp ++ lit "*" ++ nl ++ nl)
              ++ (lit "## Table of Contents" ++ nl ++ nl)
              ++ (join nl (toc_entries fs 0 files) ++ nl ++ nl)
              ++ (lit "---" ++ nl ++ nl)
              ++ List.concat (List.concat sections) /\
        sections_in_order fs files sections) /\
  ((exists out, combine_markdown_files fs timestamp files = Ok out) <->
   (exists first rest content,
       files = first :: rest /\ read_file_content fs first = Ok content)).
Proof.
  intros Hfind. split; [|split].
  - exact (find_markdown_files_sorted _ _ _ Hfind).
  - intros out Hout.
    destruct (proj1 (combine_returns fs timestamp files)
                (ex_intro _ out Hout))
      as (first & rest & content & -> & Hread).
    destruct (combine_document fs timestamp first content rest Hread)
      as (sections & Hdocument & Horder).
    exists sections. split; [|exact Horder].
    replace out
      with (List.concat (header_and_toc fs timestamp (first :: rest))
            ++ List.concat (List.concat sections)) by congruence.
    unfold header_and_toc. cbn [List.concat]. rewrite app_nil_r.
    now rewrite <- !app_assoc.
  - exact (combine_returns fs timestamp files).
Qed.

Lemma sections_follow_sorted_files_witness :
  let files := [lit "/repo/Docs/a.md"; lit "/repo/Docs/b.md"] in
  let combine :=
    @combine_markdown_files ascii_only python_codecs dir_second_fs
      sample_timestamp files in
  StronglySorted str_le files /\
  (forall out : str,
      combine = Ok out ->
      exists sections : list (list str),
        out = (lit "# Logbie Framework - Combined Documentation" ++ nl ++ nl)
              ++ (lit "*Generated on: " ++ sample_timestamp ++ lit "*" ++ nl ++ nl)
              ++ (lit "## Table of Contents" ++ nl ++ nl)
              ++ (join nl (@toc_entries ascii_only python_codecs dir_second_fs
                             0 files) ++ nl ++ nl)
              ++ (lit "---" ++ nl ++ nl)
              ++ List.concat (List.concat sections) /\
        @sections_in_order ascii_only python_codecs dir_second_fs files
          sections) /\
  ((exists out, combine = Ok out) <->
   (exists first rest content,
       files = first :: rest /\
       @read_file_content ascii_only python_codecs dir_second_fs first
       = Ok content)).
Proof.
  apply (@sections_follow_sorted_files ascii_only python_codecs dir_second_fs
           sample_docs sample_timestamp
           [lit "/repo/Docs/a.md"; lit "/repo/Docs/b.md"]).
  reflexivity.
Defined.

(** ** Exit status *)

Lemma file_write_lookup (p content : str) (fs fs' : filesystem) :
  file_write p content fs = (fs', Ok tt) ->
  exists data, utf8_encode content = Ok data /\ fs_lookup fs' p = Some (File data).
Proof.
  unfold file_write. destruct (utf8_encode content) as [data|e]; [|discriminate].
  intros [= <-]. exists data. split; [reflexivity|].
  cbn [fs_lookup]. unfold str_eqb. now destruct (list_eq_dec N.eq_dec p p).
Qed.

Lemma write_output_file_ok {ud : UnicodeData}
      (content output_path : str) (fs fs' : filesystem) :
  write_output_file content output_path fs = (fs', Ok tt) ->
  exists data,
    utf8_encode content = Ok data /\ fs_lookup fs' output_path = Some (File data).
Proof.
  unfold write_output_file, io_try, io_bind, io_raise.
  destruct (open_write output_path fs) as [fs1 [[]|e]]; [|discriminate].
  destruct (file_write output_path content fs1) as [fs2 [[]|e]] eqn:Hw;
    [|discriminate].
  intros [= <-]. now apply (file_write_lookup _ _ _ _ Hw).
Qed.

(** C9. The exit status of the run, by the outcome of its stages. It is 1
    when creating the output directory, discovery, the combiner or the writer
    raises. It is 0 when discovery finds no Markdown file, and then the file
    system is left as it was after the set-up; and it is 0 when the document
    is written, and then the output file holds its UTF-8 encoding. *)
Theorem exit_status_by_stage
        {ud : UnicodeData} {cd : Codecs}
        (script_path timestamp date_str : str) (fs : filesystem) :
  let OUTPUT_DIR := dirname (dirname script_path) in
  let DOCS_DIR := path_join OUTPUT_DIR (lit "Docs") in
  let output_path :=
    path_join OUTPUT_DIR (lit "logbie_docs_" ++ date_str ++ lit ".md") in
  let setup :=
    if path_exists fs OUTPUT_DIR then (fs, Ok tt) else makedirs OUTPUT_DIR fs in
  let status := exit_status script_path timestamp date_str fs in
  let final := fst (main script_path timestamp date_str fs) in
  match snd setup with
  | Raise _ => status = 1%Z
  | Ok _ =>
      match find_markdown_files (fst setup) DOCS_DIR with
      | Raise _ => status = 1%Z
      | Ok [] => status = 0%Z /\ final = fst setup
      | Ok (first :: rest) =>
          match combine_markdown_files (fst setup) timestamp (first :: rest) with
          | Raise _ => status = 1%Z /\ final = fst setup
          | Ok document =>
              match write_output_file document output_path (fst setup) with
              | (_, Raise _) => status = 1%Z
              | (written, Ok _) =>
                  status = 0%Z /\ final = written /\
                  exists data,
                    utf8_encode document = Ok data /\
                    fs_lookup written output_path = Some (File data)
              end
          end
      end
  end.
Proof.
  intros OUTPUT_DIR DOCS_DIR output_path setup status final.
  unfold status, final, exit_status, main.
  fold OUTPUT_DIR. fold DOCS_DIR. fold output_path.
  unfold io_try, io_bind, io_read, io_ret. cbn [negb].
  assert (Hsetup :
            (if negb (path_exists fs OUTPUT_DIR)
             then makedirs OUTPUT_DIR else (fun fs0 => (fs0, Ok tt))) fs
            = setup).
  { unfold setup. now destruct (path_exists fs OUTPUT_DIR). }
  rewrite Hsetup. destruct setup as [fs1 [[]|e]]; cbn [fst snd]; [|reflexivity].
  destruct (find_markdown_files fs1 DOCS_DIR) as [[|first rest]|e];
    [now split|..|reflexivity].
  destruct (combine_markdown_files fs1 timestamp (first :: rest))
    as [document|e]; [|now split].
  destruct (write_output_file document output_path fs1) as [fs2 [[]|e]] eqn:Hw;
    cbn [fst snd]; [|reflexivity].
  split; [reflexivity|]. split; [reflexivity|].
  exact (write_output_file_ok _ _ _ _ Hw).
Qed.

Example exit_status_samples :
  @exit_status ascii_only python_codecs sample_script sample_timestamp
    sample_date sample_fs = 0%Z /\
  @main ascii_only python_codecs sample_script sample_timestamp sample_date
    empty_docs_fs = (empty_docs_fs, Ok None) /\
  @exit_status ascii_only python_codecs sample_script sample_timestamp
    sample_date empty_docs_fs = 0%Z /\
  @exit_status ascii_only python_codecs sample_script sample_timestamp
    sample_date no_docs_fs = 1%Z.
Proof. repeat split; reflexivity. Qed.


(** * Further properties *)

(** ** UTF-8 *)

Ltac split_div c k :=
  let q := fresh "q" in
  let r := fresh "r" in
  let Hq := fresh "Hq" in
  let Hr := fresh "Hr" in
  pose proof (N.div_mod c k ltac:(discriminate)) as Hq;
  pose proof (N.mod_lt c k ltac:(discriminate)) as Hr;
  set (q := (c / k)%N) in *; set (r := (c mod k)%N) in *;
  clearbody q r.

Lemma in_range_spec (lo hi b : N) :
  in_range lo hi b = true <-> (lo <= b /\ b <= hi)%N.
Proof.
  unfold in_range. rewrite andb_true_iff, !N.leb_le. reflexivity.
Qed.

Lemma to_N_byte_of_N (n : N) : (n < 256)%N -> Byte.to_N (byte_of_N n) = n.
Proof.
  intros Hn. unfold byte_of_N. destruct (Byte.of_N n) as [b|] eqn:Hb.
  - now apply Byte.to_of_N.
  - apply Byte.of_N_None_iff in Hb. lia.
Qed.

Lemma to_N_bytes (bs : list N) :
  Forall (fun b => (b < 256)%N) bs -> map Byte.to_N (map byte_of_N bs) = bs.
Proof.
  induction 1 as [|b bs Hb _ IH]; [reflexivity|].
  cbn [map]. now rewrite to_N_byte_of_N, IH.
Qed.

Lemma utf8_decode_1 (b0 : N) (r : list N) :
  (b0 < 128)%N ->
  utf8_decode (b0 :: r) = option_map (cons b0) (utf8_decode r).
Proof.
  intros H. cbn [utf8_decode]. now apply N.ltb_lt in H as ->.
Qed.

Lemma utf8_decode_2 (b0 b1 : N) (r : list N) :
  in_range 194 223 b0 = true -> in_range 128 191 b1 = true ->
  utf8_decode (b0 :: b1 :: r)
  = option_map (cons ((b0 - 192) * 64 + (b1 - 128))%N) (utf8_decode r).
Proof.
  intros H0 H1. cbn [utf8_decode]. rewrite H0, H1.
  apply in_range_spec in H0.
  destruct (N.ltb_spec b0 128); [lia|reflexivity].
Qed.

Lemma utf8_decode_3 (b0 b1 b2 : N) (r : list N) :
  in_range 224 239 b0 = true ->
  in_range (if (b0 =? 224)%N then 160 else 128)
           (if (b0 =? 237)%N then 159 else 191) b1 = true ->
  in_range 128 191 b2 = true ->
  utf8_decode (b0 :: b1 :: b2 :: r)
  = option_map (cons ((b0 - 224) * 4096 + (b1 - 128) * 64 + (b2 - 128))%N)
               (utf8_decode r).
Proof.
  intros H0 H1 H2. cbn [utf8_decode]. rewrite H0, H1, H2.
  apply in_range_spec in H0.
  destruct (N.ltb_spec b0 128); [lia|].
  destruct (in_range 194 223 b0) eqn:Hin; [|reflexivity].
  apply in_range_spec in Hin. lia.
Qed.

Lemma utf8_decode_4 (b0 b1 b2 b3 : N) (r : list N) :
  in_range 240 244 b0 = true ->
  in_range (if (b0 =? 240)%N then 144 else 128)
           (if (b0 =? 244)%N then 143 else 191) b1 = true ->
  in_range 128 191 b2 = true -> in_range 128 191 b3 = true ->
  utf8_decode (b0 :: b1 :: b2 :: b3 :: r)
  = option_map
      (cons ((b0 - 240) * 262144 + (b1 - 128) * 4096
             + (b2 - 128) * 64 + (b3 - 128))%N)
      (utf8_decode r).
Proof.
  intros H0 H1 H2 H3. cbn [utf8_decode]. rewrite H0, H1, H2, H3.
  apply in_range_spec in H0.
  destruct (N.ltb_spec b0 128); [lia|].
  destruct (in_range 194 223 b0) eqn:Hin; [apply in_range_spec in Hin; lia|].
  destruct (in_range 224 239 b0) eqn:Hin'; [apply in_range_spec in Hin'; lia|].
  reflexivity.
Qed.

Lemma is_scalar_spec (c : codepoint) :
  is_scalar c = true <-> (c < 1114112 /\ ~ (55296 <= c <= 57343))%N.
Proof.
  unfold is_scalar, is_surrogate.
  rewrite andb_true_iff, negb_true_iff, N.ltb_lt.
  destruct (in_range 55296 57343 c) eqn:H.
  - apply in_range_spec in H. split; [intros [_ ?]; discriminate|lia].
  - split; [|tauto]. intros [Hc _]. split; [exact Hc|].
    intros Hs. apply in_range_spec in Hs. congruence.
Qed.

(** The encoding of a scalar value is read back as that value. *)
Lemma utf8_char_round_trip (c : codepoint) :
  is_scalar c = true ->
  exists bs,
    utf8_encode_char c = Some bs /\
    Forall (fun b => (b < 256)%N) bs /\
    forall r, utf8_decode (bs ++ r) = option_map (cons c) (utf8_decode r).
Proof.
  intros Hc. apply is_scalar_spec in Hc as [Hmax Hsur].
  unfold utf8_encode_char.
  destruct (N.ltb_spec c 128) as [H1|H1].
  { exists [c]. split; [reflexivity|]. split; [repeat constructor; lia|].
    intros r. now apply utf8_decode_1. }
  destruct (N.ltb_spec c 2048) as [H2|H2].
  { eexists. split; [reflexivity|].
    split_div c 64%N. split; [repeat constructor; lia|].
    intros r0. cbn [app]. rewrite utf8_decode_2.
    - do 2 f_equal. lia.
    - apply in_range_spec. lia.
    - apply in_range_spec. lia. }
  destruct (N.ltb_spec c 65536) as [H3|H3].
  { destruct (is_surrogate c) eqn:Hs.
    { apply in_range_spec in Hs. lia. }
    eexists. split; [reflexivity|].
    replace (c / 4096)%N with (c / 64 / 64)%N
      by (rewrite N.Div0.div_div; reflexivity).
    split_div c 64%N. split_div q 64%N.
    split; [repeat constructor; lia|].
    intros r1. cbn [app]. rewrite utf8_decode_3.
    - do 2 f_equal. lia.
    - apply in_range_spec. lia.
    - apply in_range_spec.
      destruct (N.eqb_spec (224 + q0) 224), (N.eqb_spec (224 + q0) 237); lia.
    - apply in_range_spec. lia. }
  eexists. split; [reflexivity|].
  replace (c / 262144)%N with (c / 64 / 64 / 64)%N
    by (rewrite !N.Div0.div_div; reflexivity).
  replace (c / 4096)%N with (c / 64 / 64)%N
    by (rewrite N.Div0.div_div; reflexivity).
  split_div c 64%N. split_div q 64%N. split_div q0 64%N.
  split; [repeat constructor; lia|].
  intros r2. cbn [app]. rewrite utf8_decode_4.
  - do 2 f_equal. lia.
  - apply in_range_spec. lia.
  - apply in_range_spec.
    destruct (N.eqb_spec (240 + q1) 240), (N.eqb_spec (240 + q1) 244); lia.
  - apply in_range_spec. lia.
  - apply in_range_spec. lia.
Qed.

Lemma utf8_encode_from_round_trip (s : str) :
  forallb is_scalar s = true ->
  forall pos,
  exists data,
    utf8_encode_from pos s = Ok data /\
    utf8_decode (map Byte.to_N data) = Some s.
Proof.
  induction s as [|c s IH]; intros Hs pos; [now exists []|].
  cbn [forallb] in Hs. apply andb_prop in Hs as [Hc Hs].
  destruct (utf8_char_round_trip c Hc) as (bs & Henc & Hbs & Hdec).
  destruct (IH Hs (S pos)) as (data & Hrest & Hback).
  exists (map byte_of_N bs ++ data). cbn [utf8_encode_from].
  rewrite Henc, Hrest. split; [reflexivity|].
  rewrite map_app, (to_N_bytes bs Hbs), Hdec, Hback. reflexivity.
Qed.

(** A text the encoder accepts holds no surrogate. *)
Lemma utf8_encode_from_no_surrogate (s : str) :
  forall pos data,
    utf8_encode_from pos s = Ok data ->
    forallb (fun c => negb (is_surrogate c)) s = true.
Proof.
  induction s as [|c s IH]; intros pos data H; [reflexivity|].
  cbn [utf8_encode_from] in H. cbn [forallb].
  destruct (utf8_encode_char c) as [bs|] eqn:Hc; [|discriminate].
  destruct (utf8_encode_from (S pos) s) as [rest|] eqn:Hrest; [|discriminate].
  rewrite (IH _ _ Hrest), andb_true_r.
  unfold utf8_encode_char in Hc.
  destruct (is_surrogate c) eqn:Hs; [|reflexivity].
  apply in_range_spec in Hs.
  destruct (N.ltb_spec c 128); [lia|].
  destruct (N.ltb_spec c 2048); [lia|].
  destruct (N.ltb_spec c 65536); [discriminate|lia].
Qed.

Lemma option_map_cons_Some {A : Type} (x : A) (o : option (list A)) (l : list A) :
  option_map (cons x) o = Some l -> exists l', o = Some l' /\ l = x :: l'.
Proof.
  destruct o as [l'|]; [|discriminate]. intros [= <-]. now exists l'.
Qed.

(** The strict decoder yields scalar values only. *)
Lemma utf8_decode_scalar (n : nat) :
  forall bs s,
    List.length bs <= n ->
    utf8_decode bs = Some s ->
    forallb is_scalar s = true.
Proof.
  induction n as [|n IH]; intros bs s Hlen Hdec.
  { destruct bs; [|cbn in Hlen; lia]. now injection Hdec as <-. }
  destruct bs as [|b0 r0]; [now injection Hdec as <-|].
  cbn [utf8_decode] in Hdec. cbn [List.length] in Hlen.
  assert (Hstep : forall c r,
             List.length r <= n -> is_scalar c = true ->
             option_map (cons c) (utf8_decode r) = Some s ->
             forallb is_scalar s = true).
  { intros c r Hr Hc H. apply option_map_cons_Some in H as (s' & Hs' & ->).
    cbn [forallb]. rewrite Hc. exact (IH r s' Hr Hs'). }
  destruct (N.ltb_spec b0 128) as [H0|H0].
  { refine (Hstep b0 r0 _ _ Hdec); [lia|]. apply is_scalar_spec. lia. }
  destruct (in_range 194 223 b0) eqn:H2.
  { destruct r0 as [|b1 r1]; [discriminate|].
    destruct (in_range 128 191 b1) eqn:Hb1; [|discriminate].
    apply in_range_spec in H2, Hb1. cbn [List.length] in Hlen.
    refine (Hstep _ r1 _ _ Hdec); [lia|]. apply is_scalar_spec. lia. }
  destruct (in_range 224 239 b0) eqn:H3.
  { destruct r0 as [|b1 [|b2 r2]]; try discriminate.
    destruct (in_range (if (b0 =? 224)%N then 160 else 128)
                       (if (b0 =? 237)%N then 159 else 191) b1) eqn:Hb1;
      [|discriminate].
    destruct (in_range 128 191 b2) eqn:Hb2; [|discriminate].
    cbn [andb] in Hdec.
    apply in_range_spec in H3, Hb1, Hb2. cbn [List.length] in Hlen.
    refine (Hstep _ r2 _ _ Hdec); [lia|]. apply is_scalar_spec.
    destruct (N.eqb_spec b0 224), (N.eqb_spec b0 237); lia. }
  destruct (in_range 240 244 b0) eqn:H4; [|discriminate].
  destruct r0 as [|b1 [|b2 [|b3 r3]]]; try discriminate.
  destruct (in_range (if (b0 =? 240)%N then 144 else 128)
                     (if (b0 =? 244)%N then 143 else 191) b1) eqn:Hb1;
    [|discriminate].
  destruct (in_range 128 191 b2) eqn:Hb2; [|discriminate].
  destruct (in_range 128 191 b3) eqn:Hb3; [|discriminate].
  cbn [andb] in Hdec.
  apply in_range_spec in H4, Hb1, Hb2, Hb3. cbn [List.length] in Hlen.
  refine (Hstep _ r3 _ _ Hdec); [lia|]. apply is_scalar_spec.
  destruct (N.eqb_spec b0 240), (N.eqb_spec b0 244); lia.
Qed.

(** ** Line ends *)

Lemma universal_newlines_upto (n : nat) (P : codepoint -> bool) :
  P LF = true ->
  forall s,
    List.length s <= n ->
    forallb (fun c => P c || (c =? CR)%N) s = true ->
    forallb (fun c => P c && is_not CR c) (universal_newlines s) = true.
Proof.
  intros HLF. induction n as [|n IH]; intros s Hlen Hs.
  { destruct s; [reflexivity|cbn in Hlen; lia]. }
  destruct s as [|c s']; [reflexivity|].
  cbn [List.length] in Hlen. cbn [forallb] in Hs.
  apply andb_prop in Hs as [Hc Hs]. cbn [universal_newlines].
  assert (Hnl : (P LF && is_not CR LF) = true) by now rewrite HLF.
  destruct (N.eqb_spec c CR) as [->|Hne].
  - destruct s' as [|d s'']; [cbn [forallb]; now rewrite Hnl|].
    cbn [forallb] in Hs. apply andb_prop in Hs as [Hd Hs''].
    cbn [List.length] in Hlen.
    destruct (d =? LF)%N; cbn [forallb]; rewrite Hnl; cbn [andb].
    + apply IH; [lia|exact Hs''].
    + apply IH; [cbn [List.length]; lia|]. cbn [forallb]. now rewrite Hd.
  - cbn [forallb]. rewrite IH by (try lia; exact Hs). rewrite andb_true_r.
    unfold is_not. apply N.eqb_neq in Hne. rewrite Hne in *.
    now rewrite orb_false_r in Hc; rewrite Hc.
Qed.

Lemma universal_newlines_no_CR (s : str) :
  has_no CR (universal_newlines s) = true.
Proof.
  unfold has_no.
  rewrite <- (universal_newlines_upto (List.length s) (fun _ => true) eq_refl s
                (le_n _)); [reflexivity|].
  now induction s.
Qed.

Lemma universal_newlines_scalar (s : str) :
  forallb is_scalar s = true ->
  forallb is_scalar (universal_newlines s) = true.
Proof.
  intros Hs.
  assert (H : forallb (fun c => is_scalar c && is_not CR c)
                      (universal_newlines s) = true).
  { apply (universal_newlines_upto (List.length s) is_scalar eq_refl s (le_n _)).
    rewrite forallb_forall in *. intros c Hc. now rewrite (Hs c Hc). }
  rewrite forallb_forall in *. intros c Hc.
  specialize (H c Hc). now apply andb_prop in H as [-> _].
Qed.

Lemma first_decoding_Some {cd : Codecs} (encodings : list encoding)
      (data : list byte) (text : str) :
  first_decoding encodings data = Some text ->
  exists enc, In enc encodings /\ decode enc data = Some text.
Proof.
  induction encodings as [|e rest IH]; [discriminate|].
  cbn [first_decoding]. destruct (decode e data) as [t|] eqn:He.
  - intros [= <-]. exists e. split; [now left|exact He].
  - intros H. destruct (IH H) as (enc & Hin & Hdec).
    exists enc. split; [now right|exact Hdec].
Qed.

(** What the reader returns comes from a regular file and one of the four
    encodings. *)
Lemma read_file_content_Ok_inv {ud : UnicodeData} {cd : Codecs}
      (fs : filesystem) (file_path text : str) :
  read_file_content fs file_path = Ok text ->
  exists data enc,
    fs_lookup fs file_path = Some (File data) /\ decode enc data = Some text.
Proof.
  intros H. destruct (fs_lookup fs file_path) as [[data|entries]|] eqn:Hl.
  - rewrite (read_file_content_file _ _ _ Hl) in H.
    destruct (first_decoding [UTF8; Latin1; Windows1252; ASCII] data)
      as [t|] eqn:Hd; [|discriminate].
    injection H as ->.
    destruct (first_decoding_Some _ _ _ Hd) as (enc & _ & Hdec).
    now exists data, enc.
  - unfold read_file_content, path_exists, open_read in H. rewrite Hl in H.
    discriminate.
  - unfold read_file_content, path_exists in H. rewrite Hl in H. discriminate.
Qed.

(** ** Reader, further *)

(** X1. With the codecs of the interpreter the reader returns a text exactly
    for a regular file. For a path that does not exist it raises
    [FileNotFoundError] with the path in the message; for a directory it
    raises [Exception] with the message of the [IsADirectoryError] inside. *)
Theorem read_file_content_outcomes
        {ud : UnicodeData} (fs : filesystem) (file_path : str) :
  ((exists text, @read_file_content ud python_codecs fs file_path = Ok text) <->
   (exists data, fs_lookup fs file_path = Some (File data))) /\
  (fs_lookup fs file_path = None ->
   @read_file_content ud python_codecs fs file_path
   = Raise (mk_exn FileNotFoundError (lit "File not found: " ++ file_path))) /\
  (forall entries,
      fs_lookup fs file_path = Some (Dir entries) ->
      @read_file_content ud python_codecs fs file_path
      = Raise (mk_exn Exception
                 (lit "Error reading file " ++ file_path
                    ++ lit ": [Errno 21] Is a directory: "
                    ++ unicode_repr file_path))).
Proof.
  split; [split|split].
  - intros [text H].
    destruct (@read_file_content_Ok_inv ud python_codecs _ _ _ H)
      as (data & _ & Hl & _).
    now exists data.
  - intros [data Hl].
    rewrite (@read_file_content_file ud python_codecs _ _ _ Hl).
    cbn [first_decoding decode python_codecs].
    destruct (python_decode UTF8 data); [eauto|].
    rewrite latin1_total. eauto.
  - intros Hl. unfold read_file_content, path_exists. now rewrite Hl.
  - intros entries Hl. unfold read_file_content, path_exists, open_read.
    rewrite Hl. reflexivity.
Qed.

Lemma read_file_content_outcomes_witness :
  @read_file_content ascii_only python_codecs dir_first_fs (lit "/repo/Docs/a.md")
  = Raise (mk_exn Exception
             (lit "Error reading file /repo/Docs/a.md: [Errno 21] Is a directory: '/repo/Docs/a.md'")).
Proof.
  destruct (@read_file_content_outcomes ascii_only dir_first_fs
              (lit "/repo/Docs/a.md")) as (_ & _ & Hdir).
  apply (Hdir []). reflexivity.
Defined.

(** X2. A text the reader returns holds no carriage return: text mode has
    turned every CR LF and every lone CR into a line feed. *)
Theorem read_file_content_no_carriage_return
        {ud : UnicodeData} (fs : filesystem) (file_path text : str) :
  @read_file_content ud python_codecs fs file_path = Ok text ->
  has_no CR text = true.
Proof.
  intros H.
  destruct (@read_file_content_Ok_inv ud python_codecs _ _ _ H)
    as (data & enc & _ & Hdec).
  cbn [decode python_codecs] in Hdec. unfold python_decode in Hdec.
  destruct (codec enc (map Byte.to_N data)) as [t|]; [|discriminate].
  injection Hdec as <-. apply universal_newlines_no_CR.
Qed.

Lemma read_file_content_no_carriage_return_witness :
  has_no CR (lit "# Title" ++ nl ++ lit "body") = true.
Proof.
  apply (@read_file_content_no_carriage_return ascii_only
           [(lit "/d/crlf.md", File (bytes_of (lit "# Title" ++ [CR; LF] ++ lit "body")))]
           (lit "/d/crlf.md")).
  reflexivity.
Defined.

(** ** Writer and reader *)

(** X3. A text the reader returns can be written: the UTF-8 encoder accepts
    it, and its bytes decode to the same text. The writer cannot fail on
    what was read from the files. *)
Theorem read_file_content_encodable
        {ud : UnicodeData} (fs : filesystem) (file_path text : str) :
  @read_file_content ud python_codecs fs file_path = Ok text ->
  exists data,
    utf8_encode text = Ok data /\
    utf8_decode (map Byte.to_N data) = Some text.
Proof.
  intros H. apply utf8_encode_from_round_trip.
  destruct (@read_file_content_Ok_inv ud python_codecs _ _ _ H)
    as (data & enc & Hl & _).
  rewrite (@read_file_content_file ud python_codecs _ _ _ Hl) in H.
  cbn [first_decoding decode python_codecs] in H. unfold python_decode in H.
  cbn [codec] in H.
  destruct (utf8_decode (map Byte.to_N data)) as [t|] eqn:Hutf8.
  - cbn [option_map] in H. injection H as <-.
    apply universal_newlines_scalar.
    exact (utf8_decode_scalar _ _ _ (le_n _) Hutf8).
  - cbn [option_map latin1_decode] in H. injection H as <-.
    apply universal_newlines_scalar.
    rewrite forallb_forall. intros c Hc. apply in_map_iff in Hc as (b & <- & _).
    apply is_scalar_spec. pose proof (Byte.to_N_bounded b). lia.
Qed.

Lemma read_file_content_encodable_witness :
  exists data,
    utf8_encode (lit "caf" ++ [233%N]) = Ok data /\
    utf8_decode (map Byte.to_N data) = Some (lit "caf" ++ [233%N]).
Proof.
  apply (@read_file_content_encodable ascii_only sample_fs
           (lit "/repo/Docs/zeta.MD")).
  reflexivity.
Defined.

Lemma str_eqb_refl (p : str) : str_eqb p p = true.
Proof. unfold str_eqb. now destruct (list_eq_dec N.eq_dec p p). Qed.

Lemma str_eqb_neq (p q : str) : p <> q -> str_eqb p q = false.
Proof. intros H. unfold str_eqb. now destruct (list_eq_dec N.eq_dec p q). Qed.

Lemma code_points_scalar (s : str) :
  forallb is_code_point s = true ->
  forallb (fun c => negb (is_surrogate c)) s = true ->
  forallb is_scalar s = true.
Proof.
  rewrite !forallb_forall. intros Hcp Hns c Hc. unfold is_scalar.
  specialize (Hcp c Hc). specialize (Hns c Hc). unfold is_code_point in Hcp.
  now rewrite Hcp, Hns.
Qed.

(** X4. What the writer wrote the reader reads back: after
    [write_output_file] has returned, [read_file_content] at the output path
    gives the content, with its line ends as text mode reads them. *)
Theorem write_then_read
        {ud : UnicodeData} (content output_path : str) (fs fs' : filesystem) :
  forallb is_code_point content = true ->
  write_output_file content output_path fs = (fs', Ok tt) ->
  @read_file_content ud python_codecs fs' output_path
  = Ok (universal_newlines content).
Proof.
  intros Hcp Hw.
  destruct (write_output_file_ok _ _ _ _ Hw) as (data & Henc & Hl).
  rewrite (@read_file_content_file ud python_codecs _ _ _ Hl).
  cbn [first_decoding decode python_codecs]. unfold python_decode.
  cbn [codec].
  assert (Hscalar : forallb is_scalar content = true).
  { apply code_points_scalar; [exact Hcp|].
    exact (utf8_encode_from_no_surrogate _ _ _ Henc). }
  destruct (utf8_encode_from_round_trip content Hscalar 0)
    as (data' & Henc' & Hdec).
  unfold utf8_encode in Henc. rewrite Henc in Henc'. injection Henc' as <-.
  now rewrite Hdec.
Qed.

Lemma write_then_read_witness :
  exists fs',
    @write_output_file ascii_only (lit "a" ++ [CR; LF] ++ lit "b" ++ [8364%N])
      (lit "/repo/out.md") sample_fs = (fs', Ok tt) /\
    @read_file_content ascii_only python_codecs fs' (lit "/repo/out.md")
    = Ok (lit "a" ++ nl ++ lit "b" ++ [8364%N]).
Proof.
  eexists. split; [reflexivity|].
  apply (@write_then_read ascii_only (lit "a" ++ [CR; LF] ++ lit "b" ++ [8364%N])
           (lit "/repo/out.md") sample_fs); reflexivity.
Defined.

(** ** Writer, further *)

Lemma link_outcome {ud : UnicodeData} (p : str) (n : node) (fs : filesystem) :
  (exists entries entries',
      fs_lookup fs (dirname p) = Some (Dir entries) /\
      incl entries entries' /\ In (basename p) entries' /\
      link p n fs = ((p, n) :: (dirname p, Dir entries') :: fs, Ok tt)) \/
  (exists e, link p n fs = (fs, Raise e) /\
             forall entries, fs_lookup fs (dirname p) <> Some (Dir entries)).
Proof.
  unfold link. destruct (fs_lookup fs (dirname p)) as [[data|entries]|].
  - right. eexists. split; [reflexivity|discriminate].
  - left. exists entries. eexists. split; [reflexivity|].
    split; [|split; [|reflexivity]].
    + destruct (existsb (str_eqb (basename p)) entries);
        [apply incl_refl|now apply incl_appl, incl_refl].
    + destruct (existsb (str_eqb (basename p)) entries) eqn:Hex.
      * apply existsb_exists in Hex as (x & Hx & Heq).
        unfold str_eqb in Heq.
        destruct (list_eq_dec N.eq_dec (basename p) x); [now subst|discriminate].
      * apply in_or_app. right. now left.
  - right. eexists. split; [reflexivity|discriminate].
Qed.

Lemma open_write_outcome {ud : UnicodeData} (p : str) (fs : filesystem) :
  (exists entries entries',
      fs_lookup fs (dirname p) = Some (Dir entries) /\
      incl entries entries' /\ In (basename p) entries' /\
      p <> dirname p /\
      open_write p fs
      = ((p, File []) :: (dirname p, Dir entries') :: fs, Ok tt)) \/
  (exists e, open_write p fs = (fs, Raise e)).
Proof.
  unfold open_write.
  destruct (fs_lookup fs p) as [[old|sub]|] eqn:Hl.
  2:{ right. eexists. reflexivity. }
  all: destruct (link_outcome p (File []) fs)
    as [(entries & entries' & Hparent & Hincl & Hin & Hlink)|(e & Hlink & _)].
  all: rewrite Hlink.
  2,4: right; eexists; reflexivity.
  all: left; exists entries, entries'; repeat split; try assumption.
  all: intros Heq; rewrite <- Heq in Hparent; congruence.
Qed.

(** X5. The writer changes nothing but the output file and the listing of
    its directory: every other path is found as before, whatever the outcome;
    and when the writer returns, the listing keeps the entries it had and
    holds the name of the output file. *)
Theorem write_output_file_frame
        {ud : UnicodeData} (content output_path : str) (fs : filesystem) :
  (forall q,
      q <> output_path -> q <> dirname output_path ->
      fs_lookup (fst (write_output_file content output_path fs)) q
      = fs_lookup fs q) /\
  (snd (write_output_file content output_path fs) = Ok tt ->
   exists entries entries',
     fs_lookup fs (dirname output_path) = Some (Dir entries) /\
     fs_lookup (fst (write_output_file content output_path fs))
               (dirname output_path) = Some (Dir entries') /\
     incl entries entries' /\ In (basename output_path) entries').
Proof.
  unfold write_output_file, io_try, io_bind, io_raise.
  destruct (open_write_outcome output_path fs)
    as [(entries & entries' & Hparent & Hincl & Hin & Hne & ->)|(e & ->)].
  2:{ cbn [fst snd]. split; [reflexivity|discriminate]. }
  unfold file_write. destruct (utf8_encode content) as [data|e]; cbn [fst snd].
  - split.
    + intros q Hq Hq'. cbn [fs_lookup].
      rewrite !(str_eqb_neq output_path q) by congruence.
      now rewrite (str_eqb_neq (dirname output_path) q) by congruence.
    + intros _. exists entries, entries'. split; [exact Hparent|].
      split; [|now split]. cbn [fs_lookup].
      now rewrite !(str_eqb_neq _ _ Hne), str_eqb_refl.
  - split; [|discriminate].
    intros q Hq Hq'. cbn [fs_lookup].
    rewrite (str_eqb_neq output_path q) by congruence.
    now rewrite (str_eqb_neq (dirname output_path) q) by congruence.
Qed.

Lemma write_output_file_frame_witness :
  exists entries',
    fs_lookup (fst (@write_output_file ascii_only (lit "text")
                      (lit "/repo/out.md") sample_fs)) (lit "/repo")
    = Some (Dir entries') /\
    incl [lit "tools"; lit "Docs"] entries' /\ In (lit "out.md") entries'.
Proof.
  destruct (@write_output_file_frame ascii_only (lit "text")
              (lit "/repo/out.md") sample_fs) as [_ Hlisting].
  destruct (Hlisting eq_refl) as (entries & entries' & Hold & Hnew & Hincl & Hin).
  exists entries'. injection Hold as <-. now repeat split.
Defined.

(** X6. How the writer fails. When the output path is a directory, or its
    parent directory is missing, nothing is changed and [Exception] carries
    the message of the [OSError]. When the file was opened and the content
    holds a surrogate, the file is left empty: the old content is lost, and
    [Exception] carries the message of the [UnicodeEncodeError]. *)
Theorem write_output_file_failures
        {ud : UnicodeData} (content output_path : str) (fs : filesystem) :
  (forall sub,
      fs_lookup fs output_path = Some (Dir sub) ->
      write_output_file content output_path fs
      = (fs, Raise (mk_exn Exception
                      (lit "Error writing output file: [Errno 21] Is a directory: "
                         ++ unicode_repr output_path)))) /\
  ((forall sub, fs_lookup fs output_path <> Some (Dir sub)) ->
   fs_lookup fs (dirname output_path) = None ->
   write_output_file content output_path fs
   = (fs, Raise (mk_exn Exception
                   (lit "Error writing output file: [Errno 2] No such file or directory: "
                      ++ unicode_repr output_path)))) /\
  (forall entries e,
      (forall sub, fs_lookup fs output_path <> Some (Dir sub)) ->
      fs_lookup fs (dirname output_path) = Some (Dir entries) ->
      utf8_encode content = Raise e ->
      exists fs',
        write_output_file content output_path fs
        = (fs', Raise (mk_exn Exception
                         (lit "Error writing output file: " ++ exn_msg e))) /\
        fs_lookup fs' output_path = Some (File [])).
Proof.
  unfold write_output_file, io_try, io_bind, io_raise, open_write, file_write.
  split; [|split].
  - intros sub Hl. rewrite Hl. reflexivity.
  - intros Hfile Hparent.
    assert (Hopen : link output_path (File []) fs
                    = (fs, Raise (os_error FileNotFoundError output_path)))
      by (unfold link; now rewrite Hparent).
    destruct (fs_lookup fs output_path) as [[old|sub]|] eqn:Hl;
      [|now destruct (Hfile sub)|]; rewrite Hopen; reflexivity.
  - intros entries e Hfile Hparent Henc.
    assert (Hopen : exists entries',
               link output_path (File []) fs
               = ((output_path, File []) :: (dirname output_path, Dir entries') :: fs,
                  Ok tt))
      by (unfold link; rewrite Hparent; eexists; reflexivity).
    destruct Hopen as [entries' Hopen].
    exists ((output_path, File []) :: (dirname output_path, Dir entries') :: fs).
    split; [|cbn [fs_lookup]; now rewrite str_eqb_refl].
    destruct (fs_lookup fs output_path) as [[old|sub]|] eqn:Hl;
      [|now destruct (Hfile sub)|]; rewrite Hopen, Henc; reflexivity.
Qed.

Lemma write_output_file_failures_witness :
  exists fs',
    @write_output_file ascii_only (lit "ab" ++ [56448%N])
      (lit "/repo/Docs/doc.md") sample_fs
    = (fs', Raise (mk_exn Exception
                     (lit "Error writing output file: 'utf-8' codec can't encode character '\udc80' in position 2: surrogates not allowed"))) /\
    fs_lookup fs' (lit "/repo/Docs/doc.md") = Some (File []).
Proof.
  destruct (@write_output_file_failures ascii_only (lit "ab" ++ [56448%N])
              (lit "/repo/Docs/doc.md") sample_fs) as (_ & _ & Henc).
  apply (Henc sample_names (encode_error 2 56448%N []));
    [discriminate|reflexivity|reflexivity].
Defined.

(** ** Title extraction, further *)

Lemma re_star_result {R : Type} (cls : codepoint -> bool)
      (k : str -> str -> option R) (s : str) :
  forall matched r,
    re_star cls k matched s = Some r ->
    exists xs t,
      s = xs ++ t /\ forallb cls xs = true /\ k (matched ++ xs) t = Some r.
Proof.
  induction s as [|c s IH]; intros matched r H.
  - exists [], []. cbn in H. now rewrite (app_nil_r matched).
  - cbn [re_star] in H. destruct (cls c) eqn:Hc.
    + destruct (re_star cls k (matched ++ [c]) s) as [r'|] eqn:Hrec.
      * injection H as ->. destruct (IH _ _ Hrec) as (xs & t & -> & Hxs & Hk).
        exists (c :: xs), t. cbn [forallb app]. rewrite Hc, Hxs.
        rewrite <- app_assoc in Hk. now repeat split.
      * exists [], (c :: s). now rewrite (app_nil_r matched).
    + exists [], (c :: s). now rewrite (app_nil_r matched).
Qed.

Lemma re_plus_result {R : Type} (cls : codepoint -> bool)
      (k : str -> str -> option R) (s : str) (r : R) :
  re_plus cls k s = Some r ->
  exists xs t,
    s = xs ++ t /\ xs <> [] /\ forallb cls xs = true /\ k xs t = Some r.
Proof.
  unfold re_plus. destruct s as [|c s]; [discriminate|].
  destruct (cls c) eqn:Hc; [|discriminate]. intros H.
  destruct (re_star_result _ _ _ _ _ H) as (xs & t & -> & Hxs & Hk).
  exists (c :: xs), t. cbn [forallb]. rewrite Hc, Hxs.
  now repeat split.
Qed.

(** Group 1 of a match is a piece of one line and is not empty. *)
Lemma heading_at_group (s g : str) :
  heading_at s = Some g -> g <> [] /\ has_no LF g = true.
Proof.
  unfold heading_at, re_char. destruct s as [|c s]; [discriminate|].
  destruct (c =? HASH)%N; [|discriminate]. intros H.
  apply re_plus_result in H as (ws & s1 & _ & _ & _ & H).
  apply re_plus_result in H as (xs & s2 & _ & Hne & Hxs & H).
  destruct (at_eol s2); [|discriminate]. injection H as <-.
  split; [exact Hne|exact Hxs].
Qed.

Lemma search_heading_group (s : str) :
  forall at_bol g,
    search_heading at_bol s = Some g -> g <> [] /\ has_no LF g = true.
Proof.
  induction s as [|c s IH]; intros at_bol g H; cbn [search_heading] in H.
  - destruct at_bol; [|discriminate].
    destruct (heading_at []) eqn:Hh; [|discriminate].
    injection H as <-. now apply heading_at_group in Hh.
  - destruct (if at_bol then heading_at (c :: s) else None) as [g'|] eqn:Hh.
    + injection H as <-. destruct at_bol; [|discriminate].
      now apply heading_at_group in Hh.
    + exact (IH _ _ H).
Qed.

Lemma lstrip_split (s : str) :
  exists ws,
    s = ws ++ lstrip s /\ forallb is_space ws = true /\
    match lstrip s with [] => True | c :: _ => is_space c = false end.
Proof.
  induction s as [|c s (ws & Hs & Hws & Hhead)]; [now exists []|].
  cbn [lstrip]. destruct (is_space c) eqn:Hc.
  - exists (c :: ws). cbn [forallb app]. rewrite Hc, Hws. now rewrite <- Hs.
  - now exists [].
Qed.

Lemma lstrip_fixed (s : str) :
  match s with [] => True | c :: _ => is_space c = false end -> lstrip s = s.
Proof. destruct s as [|c s]; [reflexivity|]. cbn. now intros ->. Qed.

Lemma lstrip_idempotent (s : str) : lstrip (lstrip s) = lstrip s.
Proof.
  destruct (lstrip_split s) as (_ & _ & _ & H). now apply lstrip_fixed.
Qed.

Lemma rstrip_idempotent (s : str) : rstrip (rstrip s) = rstrip s.
Proof. unfold rstrip. now rewrite rev_involutive, lstrip_idempotent. Qed.

Lemma rstrip_split (s : str) :
  exists ws, s = rstrip s ++ ws /\ forallb is_space ws = true.
Proof.
  destruct (lstrip_split (rev s)) as (ws & Hs & Hws & _).
  exists (rev ws). split.
  - unfold rstrip. rewrite <- rev_app_distr, <- Hs. now rewrite rev_involutive.
  - rewrite forallb_forall in *. intros c Hc. apply Hws. now apply in_rev.
Qed.

(** What [strip] returns has no whitespace at either end. *)
Lemma strip_trimmed (s : str) :
  lstrip (strip s) = strip s /\ rstrip (strip s) = strip s.
Proof.
  unfold strip. split; [|apply rstrip_idempotent].
  destruct (lstrip_split s) as (_ & _ & _ & Hhead).
  destruct (rstrip_split (lstrip s)) as (ws & Hs & _).
  apply lstrip_fixed.
  destruct (rstrip (lstrip s)) as [|c r]; [exact I|].
  rewrite Hs in Hhead. exact Hhead.
Qed.

Lemma strip_keeps (P : codepoint -> bool) (s : str) :
  forallb P s = true -> forallb P (strip s) = true.
Proof.
  intros H. unfold strip.
  destruct (lstrip_split s) as (ws & Hs & _ & _).
  destruct (rstrip_split (lstrip s)) as (ws' & Hs' & _).
  rewrite Hs, Hs', !forallb_app in H.
  apply andb_prop in H as [_ H]. now apply andb_prop in H as [H _].
Qed.

(** X7. A title taken from a heading is a piece of one line, without
    whitespace at either end: whenever the pattern matches, the title is
    group 1 trimmed, holds no line feed, and [lstrip] and [rstrip] leave it
    as it is. *)
Theorem get_file_title_one_trimmed_line
        {ud : UnicodeData} (file_path content group1 : str) :
  search_heading true content = Some group1 ->
  let title := get_file_title file_path content in
  title = strip group1 /\
  has_no LF title = true /\
  lstrip title = title /\ rstrip title = title.
Proof.
  intros H title. unfold title, get_file_title. rewrite H.
  destruct (search_heading_group _ _ _ H) as [_ Hline].
  destruct (strip_trimmed group1) as [Hl Hr].
  split; [reflexivity|]. split; [|now split].
  now apply strip_keeps.
Qed.

Lemma get_file_title_one_trimmed_line_witness :
  @get_file_title ascii_only (lit "/repo/Docs/doc.md")
    (lit "intro" ++ nl ++ lit "#   Spaced  Out   " ++ nl ++ lit "more")
  = lit "Spaced  Out".
Proof.
  apply (@get_file_title_one_trimmed_line ascii_only (lit "/repo/Docs/doc.md")
           (lit "intro" ++ nl ++ lit "#   Spaced  Out   " ++ nl ++ lit "more")
           (lit "Spaced  Out   ")).
  reflexivity.
Defined.

(** ** Sections, further *)

Lemma re_star_fails {R : Type} (cls : codepoint -> bool)
      (k : str -> str -> option R) (P : str -> Prop) :
  (forall c t, P (c :: t) -> P t) ->
  (forall m t, P t -> k m t = None) ->
  forall s m, P s -> re_star cls k m s = None.
Proof.
  intros Htail Hk. induction s as [|c s IH]; intros m Hs; cbn [re_star].
  - now apply Hk.
  - rewrite (IH _ (Htail _ _ Hs)), (Hk _ _ Hs). now destruct (cls c).
Qed.

Lemma re_plus_fails {R : Type} (cls : codepoint -> bool)
      (k : str -> str -> option R) (P : str -> Prop) :
  (forall c t, P (c :: t) -> P t) ->
  (forall m t, P t -> k m t = None) ->
  forall s, P s -> re_plus cls k s = None.
Proof.
  intros Htail Hk s Hs. unfold re_plus. destruct s as [|c s]; [reflexivity|].
  destruct (cls c); [|reflexivity].
  exact (re_star_fails cls k P Htail Hk s [c] (Htail _ _ Hs)).
Qed.

Lemma has_no_tail (x c : codepoint) (t : str) :
  has_no x (c :: t) = true -> has_no x t = true.
Proof. unfold has_no. cbn [forallb]. intros H. now apply andb_prop in H. Qed.

(** Without a line feed there is no heading line to remove. *)
Lemma remove_first_heading_no_line_feed (s : str) :
  has_no LF s = true -> remove_first_heading s = s.
Proof.
  intros Hs. unfold remove_first_heading, heading_line_at_start, re_char.
  destruct s as [|c s]; [reflexivity|].
  destruct (c =? HASH)%N; [|reflexivity].
  rewrite (re_plus_fails is_space _ (fun t => has_no LF t = true));
    [reflexivity|apply has_no_tail| |exact (has_no_tail _ _ _ Hs)].
  intros _ t Ht.
  apply (re_plus_fails re_dot _ (fun t => has_no LF t = true));
    [apply has_no_tail| |exact Ht].
  intros _ [|d u] Hu; [reflexivity|].
  unfold has_no in Hu. cbn [forallb] in Hu. apply andb_prop in Hu as [Hd _].
  unfold is_not in Hd. now destruct (d =? LF)%N.
Qed.

Lemma strip_lstrip (s : str) : strip (lstrip s) = strip s.
Proof. unfold strip. now rewrite lstrip_idempotent. Qed.

(** X8. The heading line is removed from the body only when a line feed ends
    it: for a text that, its leading whitespace apart, holds no line feed (a
    file that is a heading and nothing else, say) the body of the section is
    the whole text, trimmed, heading included. *)
Theorem file_section_keeps_lone_heading
        {ud : UnicodeData} (file_path content : str) :
  has_no LF (lstrip content) = true ->
  nth 3 (file_section file_path content) [] = strip content.
Proof.
  intros H. unfold file_section. cbn [nth].
  destruct (startswith (lstrip content) (lit "# ")); [|reflexivity].
  rewrite (remove_first_heading_no_line_feed _ H). apply strip_lstrip.
Qed.

Lemma file_section_keeps_lone_heading_witness :
  nth 3 (@file_section ascii_only (lit "/repo/Docs/doc.md") (lit "# Title")) []
  = lit "# Title".
Proof.
  apply (@file_section_keeps_lone_heading ascii_only (lit "/repo/Docs/doc.md")
           (lit "# Title")).
  reflexivity.
Defined.

(** A text that starts with [# ], more whitespace or none, a remainder of
    the line that starts with a character that is no whitespace, and a line
    feed: both patterns match at its start. *)
Lemma leading_heading_matches (ws : str) (c : codepoint) (t body : str) :
  forallb is_space ws = true -> is_space c = false -> has_no LF t = true ->
  let content := HASH :: 32%N :: ws ++ c :: t ++ LF :: body in
  heading_at content = Some (c :: t) /\
  heading_line_at_start content = Some body.
Proof.
  intros Hws Hc Ht content. unfold content, heading_at, heading_line_at_start.
  cbn [re_char]. rewrite N.eqb_refl. cbn [re_plus].
  change (is_space 32%N) with true. cbv iota.
  split.
  - apply re_star_greedy; [exact Hws|exact Hc|].
    cbn [re_plus]. rewrite (not_space_re_dot _ Hc).
    apply re_star_greedy; [exact Ht|reflexivity|reflexivity].
  - apply re_star_greedy; [exact Hws|exact Hc|].
    cbn [re_plus]. rewrite (not_space_re_dot _ Hc).
    apply re_star_greedy; [exact Ht|reflexivity|].
    cbn [re_char]. now rewrite N.eqb_refl.
Qed.

(** X9. The round trip for every file that starts with a heading line: the
    section has the begin marker and the source line with the name of the
    file, the heading [# ] with the trimmed title once, and as its body the
    text after the heading line, trimmed. *)
Theorem file_section_round_trip
        {ud : UnicodeData} (file_path : str)
        (ws : str) (c : codepoint) (t body : str) :
  forallb is_space ws = true -> is_space c = false -> has_no LF t = true ->
  let content := lit "# " ++ ws ++ c :: t ++ LF :: body in
  get_file_title file_path content = strip (c :: t) /\
  file_section file_path content =
    [ lit "<!-- BEGIN: " ++ basename file_path ++ lit " -->" ++ nl ++ nl;
      lit "# " ++ strip (c :: t) ++ nl ++ nl;
      lit "*Source: `" ++ basename file_path ++ lit "`*" ++ nl ++ nl;
      strip body;
      nl ++ nl;
      lit "<!-- END: {filename} -->" ++ nl ++ nl;
      lit "---" ++ nl ++ nl ].
Proof.
  intros Hws Hc Ht content.
  destruct (leading_heading_matches ws c t body Hws Hc Ht) as [Hsearch Hsub].
  change (heading_at content = Some (c :: t)) in Hsearch.
  change (heading_line_at_start content = Some body) in Hsub.
  assert (Htitle : get_file_title file_path content = strip (c :: t)).
  { unfold get_file_title.
    now rewrite (search_heading_here _ _ Hsearch). }
  split; [exact Htitle|].
  unfold file_section. rewrite Htitle.
  change (lstrip content) with content.
  assert (Hstart : startswith content (lit "# ") = true).
  { unfold content. cbn. now destruct (ws ++ c :: t ++ LF :: body). }
  rewrite Hstart. unfold remove_first_heading. now rewrite Hsub.
Qed.

Lemma file_section_round_trip_witness :
  @file_section ascii_only (lit "/repo/Docs/guide.md")
    (lit "#  User Guide " ++ nl ++ nl ++ lit "Read me." ++ nl)
  = [ lit "<!-- BEGIN: guide.md -->" ++ nl ++ nl;
      lit "# User Guide" ++ nl ++ nl;
      lit "*Source: `guide.md`*" ++ nl ++ nl;
      lit "Read me.";
      nl ++ nl;
      lit "<!-- END: {filename} -->" ++ nl ++ nl;
      lit "---" ++ nl ++ nl ].
Proof.
  apply (@file_section_round_trip ascii_only (lit "/repo/Docs/guide.md")
           (lit " ") 85%N (lit "ser Guide ") (nl ++ lit "Read me." ++ nl));
    reflexivity.
Defined.

(** ** Combiner, further *)

Lemma startswith_app (p s : str) : startswith (p ++ s) p = true.
Proof.
  induction p as [|a p IH]; [now destruct s|].
  cbn. now rewrite N.eqb_refl.
Qed.

Lemma endswith_app (s p : str) : endswith (s ++ p) p = true.
Proof. unfold endswith. rewrite rev_app_distr. apply startswith_app. Qed.

Lemma endswith_eq (s p x : str) : s = x ++ p -> endswith s p = true.
Proof. intros ->. apply endswith_app. Qed.

Lemma section_ends_with_rule {ud : UnicodeData} {cd : Codecs}
      (fs : filesystem) (earlier : list str) (file_path : str)
      (section : list str) :
  section_of fs earlier file_path section ->
  exists front, List.concat section = front ++ RULE.
Proof.
  intros Hsec. exists (List.concat (removelast section)).
  assert (Hlast : section = removelast section ++ [RULE])
    by now destruct Hsec.
  rewrite Hlast at 1. rewrite concat_app. cbn [List.concat].
  now rewrite app_nil_r.
Qed.

Lemma sections_end_with_rule {ud : UnicodeData} {cd : Codecs}
      (fs : filesystem) (files : list str) (sections : list (list str)) :
  sections_in_order fs files sections ->
  files <> [] ->
  exists front, List.concat (List.concat sections) = front ++ RULE.
Proof.
  intros [Hlength Hall] Hfiles.
  destruct (exists_last Hfiles) as (files' & file_path & ->).
  assert (Hsections : sections <> []).
  { intros ->. rewrite length_app in Hlength. cbn in Hlength. lia. }
  destruct (exists_last Hsections) as (init & section & ->).
  rewrite !length_app in Hlength. cbn [List.length] in Hlength.
  destruct (Hall (List.length files') file_path) as (section' & Hnth & Hsec).
  { rewrite nth_error_app2, Nat.sub_diag by lia. reflexivity. }
  rewrite nth_error_app2 in Hnth by lia.
  replace (List.length files' - List.length init) with 0 in Hnth by lia.
  injection Hnth as <-.
  destruct (section_ends_with_rule _ _ _ _ Hsec) as [front Hfront].
  exists (List.concat (List.concat init) ++ front).
  rewrite !concat_app. cbn [List.concat]. rewrite !app_nil_r.
  now rewrite Hfront, app_assoc.
Qed.

(** X10. What the combiner returns, for every list of files. For the empty
    list it raises [ZeroDivisionError] (the progress bar after the loop
    divides by the number of files). When the first file cannot be read it
    raises [UnboundLocalError]. Otherwise it returns a document, which starts
    with the title, the line of the timestamp and the heading of the table
    of contents, and ends with a horizontal rule. *)
Theorem combine_markdown_files_outcomes
        {ud : UnicodeData} {cd : Codecs}
        (fs : filesystem) (timestamp : str) (files : list str) :
  match files with
  | [] =>
      combine_markdown_files fs timestamp files
      = Raise (mk_exn ZeroDivisionError (lit "float division by zero"))
  | first :: _ =>
      match read_file_content fs first with
      | Raise _ =>
          combine_markdown_files fs timestamp files = Raise unbound_filename
      | Ok _ =>
          exists out,
            combine_markdown_files fs timestamp files = Ok out /\
            startswith out
              (lit "# Logbie Framework - Combined Documentation" ++ nl ++ nl
               ++ lit "*Generated on: " ++ timestamp ++ lit "*" ++ nl ++ nl
               ++ lit "## Table of Contents" ++ nl ++ nl) = true /\
            endswith out RULE = true
      end
  end.
Proof.
  destruct files as [|first rest]; [reflexivity|].
  destruct (read_file_content fs first) as [content|e] eqn:Hread.
  - destruct (combine_document fs timestamp first content rest Hread)
      as (sections & Hout & Hall).
    eexists. split; [exact Hout|]. split.
    + set (prefix := lit "# Logbie Framework - Combined Documentation" ++ nl ++ nl
                     ++ lit "*Generated on: " ++ timestamp ++ lit "*" ++ nl ++ nl
                     ++ lit "## Table of Contents" ++ nl ++ nl).
      assert (Hhead : exists tail,
                 List.concat (header_and_toc fs timestamp (first :: rest))
                 = prefix ++ tail).
      { eexists. unfold header_and_toc, prefix. cbn [List.concat].
        rewrite <- !app_assoc. reflexivity. }
      destruct Hhead as [tail ->]. rewrite <- app_assoc.
      apply startswith_app.
    + destruct (sections_end_with_rule fs _ _ Hall) as [front Hfront];
        [discriminate|].
      apply (endswith_eq _ _
               (List.concat (header_and_toc fs timestamp (first :: rest)) ++ front)).
      rewrite <- app_assoc. f_equal. exact Hfront.
  - exact (combine_aborts fs timestamp first rest e Hread).
Qed.

(** X11. After a file that was read, the error section of a file that
    cannot be read carries the name of the file before it: two iterations of
    the second loop, from any state, append the section of the first file
    and then an error section whose markers and heading name the first file
    and whose details are the message of the exception of the second. *)
Theorem error_section_names_previous_file
        {ud : UnicodeData} {cd : Codecs}
        (fs : filesystem) (total i : nat) (st : locals)
        (first second content : str) (e : exn) :
  total <> 0 ->
  read_file_content fs first = Ok content ->
  read_file_content fs second = Raise e ->
  exists st',
    process_files fs total i [first; second] st = Ok st' /\
    combined_content st'
    = combined_content st
      ++ file_section first content
      ++ [ lit "<!-- BEGIN: ERROR - " ++ basename first ++ lit " -->" ++ nl ++ nl;
           lit "# Error: Could not process " ++ basename first ++ nl ++ nl;
           lit "Error details: " ++ exn_msg e ++ nl ++ nl;
           lit "<!-- END: ERROR - " ++ basename first ++ lit " -->" ++ nl ++ nl;
           lit "---" ++ nl ++ nl ] /\
    filename st' = Some (basename first).
Proof.
  intros Htotal Hfirst Hsecond. cbn [process_files].
  rewrite (process_file_read fs total i first content st Htotal Hfirst).
  rewrite (process_file_error_bound fs total (S i) second (basename first) e
             {| combined_content :=
                  combined_content st ++ file_section first content;
                filename := Some (basename first) |}
             Htotal eq_refl Hsecond).
  eexists. split; [reflexivity|]. cbn [combined_content filename].
  split; [|reflexivity]. now rewrite <- app_assoc.
Qed.

Lemma error_section_names_previous_file_witness :
  exists st',
    @process_files ascii_only python_codecs dir_second_fs 2 0
      [lit "/repo/Docs/a.md"; lit "/repo/Docs/b.md"] (mk_locals [] None) = Ok st' /\
    nth 7 (combined_content st') [] = lit "<!-- BEGIN: ERROR - a.md -->" ++ nl ++ nl.
Proof.
  destruct (@error_section_names_previous_file ascii_only python_codecs
              dir_second_fs 2 0 (mk_locals [] None)
              (lit "/repo/Docs/a.md") (lit "/repo/Docs/b.md")
              (lit "# A" ++ nl ++ lit "text")
              (mk_exn Exception
                 (lit "Error reading file /repo/Docs/b.md: [Errno 21] Is a directory: '/repo/Docs/b.md'")))
    as (st' & Hrun & Hcontent & _); [discriminate|reflexivity|reflexivity|].
  exists st'. split; [exact Hrun|]. rewrite Hcontent. reflexivity.
Defined.

(** ** Table of contents, further *)

Lemma toc_entries_nth {ud : UnicodeData} {cd : Codecs}
      (fs : filesystem) (files : list str) :
  forall k i,
    nth_error (toc_entries fs k files) i
    = option_map (toc_entry fs (k + i)) (nth_error files i).
Proof.
  induction files as [|f files IH]; intros k i; [now destruct i|].
  destruct i as [|i]; cbn [toc_entries nth_error option_map].
  - now rewrite Nat.add_0_r.
  - rewrite IH. now rewrite Nat.add_succ_comm.
Qed.

(** X12. The table of contents has one entry per file, in the order of the
    files and numbered from 1: the entry at position [i] is that of the file
    at position [i]. For a file that is read it is the number [i + 1], the
    title in brackets and the anchor of the title; for a file that cannot be
    read it is the number, [Error:] with the base name of that very file,
    and [#error-] with the number. *)
Theorem toc_entries_numbered
        {ud : UnicodeData} {cd : Codecs}
        (fs : filesystem) (files : list str) :
  List.length (toc_entries fs 0 files) = List.length files /\
  forall (i : nat) (file_path : str),
    nth_error files i = Some file_path ->
    nth_error (toc_entries fs 0 files) i
    = Some (match read_file_content fs file_path with
            | Ok content =>
                str_of_nat (i + 1) ++ lit ". ["
                  ++ get_file_title file_path content ++ lit "](#"
                  ++ toc_anchor (get_file_title file_path content) ++ lit ")"
            | Raise _ =>
                str_of_nat (i + 1) ++ lit ". [Error: " ++ basename file_path
                  ++ lit "](#error-" ++ str_of_nat (i + 1) ++ lit ")"
            end).
Proof.
  split.
  - generalize 0. induction files as [|f files IH]; intros k;
      [reflexivity|cbn; now rewrite IH].
  - intros i file_path Hnth.
    rewrite toc_entries_nth, Hnth. cbn [option_map plus].
    unfold toc_entry. now destruct (read_file_content fs file_path).
Qed.

Lemma toc_entries_numbered_witness :
  let files := [lit "/repo/Docs/a.md"; lit "/repo/Docs/b.md"] in
  nth_error (@toc_entries ascii_only python_codecs dir_second_fs 0 files) 0
  = Some (lit "1. [A](#a)") /\
  nth_error (@toc_entries ascii_only python_codecs dir_second_fs 0 files) 1
  = Some (lit "2. [Error: b.md](#error-2)").
Proof.
  destruct (@toc_entries_numbered ascii_only python_codecs dir_second_fs
              [lit "/repo/Docs/a.md"; lit "/repo/Docs/b.md"]) as [_ Hentry].
  split.
  - exact (Hentry 0 (lit "/repo/Docs/a.md") eq_refl).
  - exact (Hentry 1 (lit "/repo/Docs/b.md") eq_refl).
Defined.

(** ** Discovery, further *)

Lemma filter_perm {A : Type} (f : A -> bool) (l l' : list A) :
  Permutation l l' -> Permutation (filter f l) (filter f l').
Proof.
  induction 1 as [|x l l' _ IH|x y l|l l' l'' _ IH _ IH'];
    cbn [filter].
  - constructor.
  - destruct (f x); [now constructor|exact IH].
  - destruct (f x), (f y); try reflexivity. apply perm_swap.
  - now transitivity (filter f l').
Qed.

(** Two sorted lists with the same elements are the same list. *)
Lemma sorted_perm_unique (l : list str) :
  forall l',
    StronglySorted str_le l -> StronglySorted str_le l' ->
    Permutation l l' -> l = l'.
Proof.
  induction l as [|x l IH]; intros l' Hl Hl' Hperm.
  - now apply Permutation_nil in Hperm.
  - destruct l' as [|y l'].
    { symmetry in Hperm. now apply Permutation_nil in Hperm. }
    apply StronglySorted_inv in Hl as [Hl Hx].
    apply StronglySorted_inv in Hl' as [Hl' Hy].
    assert (Hxy : x = y).
    { assert (Hin : In x (y :: l'))
        by (apply (Permutation_in _ Hperm); now left).
      assert (Hin' : In y (x :: l))
        by (apply (Permutation_in _ (Permutation_sym Hperm)); now left).
      destruct Hin as [Heq|Hin]; [now symmetry|].
      destruct Hin' as [Heq|Hin']; [exact Heq|].
      rewrite Forall_forall in Hx, Hy.
      apply str_leb_antisym; [exact (Hx _ Hin')|exact (Hy _ Hin)]. }
    subst y. f_equal. apply IH; [exact Hl|exact Hl'|].
    exact (Permutation_cons_inv Hperm).
Qed.

Lemma sort_perm_eq (l l' : list str) : Permutation l l' -> sort l = sort l'.
Proof.
  intros H. apply sorted_perm_unique; try apply sort_sorted.
  transitivity l; [symmetry; apply sort_perm|].
  transitivity l'; [exact H|apply sort_perm].
Qed.

(** X13. The result of discovery does not depend on the order in which the
    directory is listed: two file systems that list the same names for the
    directory, in any order, give the same list of paths. *)
Theorem find_markdown_files_listing_order
        {ud : UnicodeData} (fs fs' : filesystem) (directory : str)
        (names names' : list str) :
  fs_lookup fs directory = Some (Dir names) ->
  fs_lookup fs' directory = Some (Dir names') ->
  Permutation names names' ->
  find_markdown_files fs directory = find_markdown_files fs' directory.
Proof.
  intros H H' Hperm. unfold find_markdown_files, path_exists, listdir.
  rewrite H, H'. cbn [negb]. f_equal.
  apply sort_perm_eq, Permutation_map, filter_perm, Hperm.
Qed.

Lemma find_markdown_files_listing_order_witness :
  @find_markdown_files ascii_only sample_fs sample_docs
  = @find_markdown_files ascii_only
      [(sample_docs, Dir (rev sample_names))] sample_docs.
Proof.
  apply (@find_markdown_files_listing_order ascii_only sample_fs
           [(sample_docs, Dir (rev sample_names))] sample_docs
           sample_names (rev sample_names));
    [reflexivity|reflexivity|apply Permutation_rev].
Defined.

Lemma endswith_one (d : str) (c : codepoint) :
  endswith d [c] = true -> exists a, d = a ++ [c].
Proof.
  unfold endswith. cbn [rev app]. destruct (rev d) as [|x r] eqn:Hr;
    [discriminate|].
  cbn [startswith]. destruct (N.eqb_spec c x) as [<-|]; [|discriminate].
  intros _. exists (rev r). rewrite <- (rev_involutive d), Hr. reflexivity.
Qed.

Lemma basename_after_sep (a name : str) :
  has_no SEP name = true -> basename (a ++ SEP :: name) = name.
Proof.
  intros Hname. unfold basename, rfind.
  rewrite rfind_from_last by exact Hname.
  replace (Z.to_nat (0 + Z.of_nat (List.length a) + 1))
    with (List.length (a ++ [SEP])) by (rewrite length_app; cbn; lia).
  replace (a ++ SEP :: name) with ((a ++ [SEP]) ++ name)
    by now rewrite <- app_assoc.
  now rewrite skipn_app, skipn_all, Nat.sub_diag.
Qed.

(** The base name of a name joined to a directory is the name. *)
Lemma basename_path_join (directory name : str) :
  has_no SEP name = true -> basename (path_join directory name) = name.
Proof.
  intros Hname. unfold path_join.
  destruct (startswith name [SEP]) eqn:Hstart.
  { destruct name as [|c name]; [reflexivity|].
    unfold has_no in Hname. cbn [forallb startswith] in *.
    apply andb_prop in Hname as [Hc _]. unfold is_not in Hc.
    rewrite N.eqb_sym in Hstart. now destruct (c =? SEP)%N. }
  destruct directory as [|d0 directory].
  { cbn [orb app]. unfold basename, rfind.
    now rewrite (rfind_from_absent SEP name) by exact Hname. }
  cbn [orb]. destruct (endswith (d0 :: directory) [SEP]) eqn:Hend.
  - destruct (endswith_one _ _ Hend) as [a ->].
    rewrite <- app_assoc. now apply basename_after_sep.
  - now apply basename_after_sep.
Qed.

(** X14. The paths discovery returns are exactly the names of the listing
    that end in [.md] without regard to case, joined to the directory; the
    base name of each is that name again, which is the name the combiner
    writes into the markers. A listing holds names without separator. *)
Theorem find_markdown_files_members
        {ud : UnicodeData} (fs : filesystem) (directory : str)
        (names files : list str) :
  fs_lookup fs directory = Some (Dir names) ->
  forallb (has_no SEP) names = true ->
  find_markdown_files fs directory = Ok files ->
  forall file_path,
    In file_path files <->
    (In (basename file_path) names /\
     is_markdown (basename file_path) = true /\
     file_path = path_join directory (basename file_path)).
Proof.
  intros Hdir Hnames Hfind file_path.
  unfold find_markdown_files, path_exists, listdir in Hfind.
  rewrite Hdir in Hfind. cbn [negb] in Hfind. injection Hfind as <-.
  rewrite forallb_forall in Hnames.
  split.
  - intros Hin.
    apply (Permutation_in _ (Permutation_sym (sort_perm _))) in Hin.
    apply in_map_iff in Hin as (name & <- & Hname).
    apply filter_In in Hname as [Hname Hmd].
    rewrite (basename_path_join _ _ (Hnames _ Hname)). now repeat split.
  - intros (Hin & Hmd & Heq).
    apply (Permutation_in _ (sort_perm _)). rewrite Heq.
    apply in_map, filter_In. now split.
Qed.

Lemma find_markdown_files_members_witness :
  In (lit "/repo/Docs/zeta.MD")
     [lit "/repo/Docs/alpha.md"; lit "/repo/Docs/doc.md"; lit "/repo/Docs/zeta.MD"] <->
  (In (lit "zeta.MD") sample_names /\
   @is_markdown ascii_only (lit "zeta.MD") = true /\
   lit "/repo/Docs/zeta.MD" = path_join sample_docs (lit "zeta.MD")).
Proof.
  apply (@find_markdown_files_members ascii_only sample_fs sample_docs
           sample_names
           [lit "/repo/Docs/alpha.md"; lit "/repo/Docs/doc.md"; lit "/repo/Docs/zeta.MD"]
           eq_refl eq_refl eq_refl (lit "/repo/Docs/zeta.MD")).
Defined.

(** ** Progress bar *)

(** X15. The bar has the width asked for at every step of a run: for a
    count that does not exceed the total, the bar is [length] characters
    long; it is all dashes at 0 and all fill characters when the count
    reaches the total. *)
Theorem progress_bar_width (current total length : nat) (fill : codepoint) :
  total <> 0 -> current <= total ->
  List.length (progress_bar current total length fill) = length /\
  (current = 0 -> progress_bar current total length fill = repeat 45%N length) /\
  (current = total -> progress_bar current total length fill = repeat fill length).
Proof.
  intros Htotal Hle. unfold progress_bar.
  assert (Hfilled : length * current / total <= length).
  { apply Nat.Div0.div_le_upper_bound. rewrite (Nat.mul_comm total).
    now apply Nat.mul_le_mono_l. }
  split; [|split].
  - rewrite length_app, !repeat_length. lia.
  - intros ->. rewrite Nat.mul_0_r, Nat.Div0.div_0_l. cbn [repeat app].
    now rewrite Nat.sub_0_r.
  - intros ->. rewrite Nat.div_mul by exact Htotal.
    rewrite Nat.sub_diag. cbn [repeat]. apply app_nil_r.
Qed.

Lemma progress_bar_width_witness :
  List.length (progress_bar 2 3 BAR_LENGTH BAR_FILL) = BAR_LENGTH /\
  (2 = 0 -> progress_bar 2 3 BAR_LENGTH BAR_FILL = repeat 45%N BAR_LENGTH) /\
  (2 = 3 -> progress_bar 2 3 BAR_LENGTH BAR_FILL = repeat BAR_FILL BAR_LENGTH).
Proof.
  apply (progress_bar_width 2 3 BAR_LENGTH BAR_FILL); [discriminate|].
  repeat constructor.
Defined.

(** ** Writer, success *)

(** X16. The writer returns exactly when the output path is no directory,
    its parent directory exists and the content has a UTF-8 encoding; the
    output file then holds that encoding, whether or not a file was there
    before. *)
Theorem write_output_file_succeeds_iff
        {ud : UnicodeData} (content output_path : str) (fs : filesystem) :
  (snd (write_output_file content output_path fs) = Ok tt <->
   ((forall sub, fs_lookup fs output_path <> Some (Dir sub)) /\
    (exists entries, fs_lookup fs (dirname output_path) = Some (Dir entries)) /\
    (exists data, utf8_encode content = Ok data))) /\
  (forall data,
      utf8_encode content = Ok data ->
      snd (write_output_file content output_path fs) = Ok tt ->
      fs_lookup (fst (write_output_file content output_path fs)) output_path
      = Some (File data)).
Proof.
  unfold write_output_file, io_try, io_bind, io_raise, open_write, link,
    file_write.
  destruct (fs_lookup fs output_path) as [[old|sub]|] eqn:Hl;
    destruct (fs_lookup fs (dirname output_path)) as [[pd|entries]|] eqn:Hp;
    destruct (utf8_encode content) as [data|e] eqn:He;
    cbn [fst snd].
  all: split; [split|].
  all: try (intros H;
            first [ discriminate H
                  | split; [intros ?; discriminate|split; eexists; reflexivity] ]).
  all: try (intros (Hfile & [? Hparent] & [? Hdata]);
            first [ discriminate Hparent | discriminate Hdata | reflexivity
                  | exfalso; exact (Hfile _ eq_refl) ]).
  all: intros data' Hd Hok;
    first [ discriminate Hok
          | injection Hd as <-; cbn [fs_lookup]; now rewrite str_eqb_refl ].
Qed.

Lemma write_output_file_succeeds_iff_witness :
  fs_lookup (fst (@write_output_file ascii_only (lit "new")
                    (lit "/repo/Docs/doc.md") sample_fs))
            (lit "/repo/Docs/doc.md")
  = Some (File (bytes_of (lit "new"))).
Proof.
  destruct (@write_output_file_succeeds_iff ascii_only (lit "new")
              (lit "/repo/Docs/doc.md") sample_fs) as [_ Hfile].
  apply Hfile; reflexivity.
Defined.

(** ** The run, further *)

(** X17. A run in a checkout whose output directory exists changes nothing
    but the output file and the listing of its directory, whatever happens:
    every other path is found as before. And the run never ends with an
    exception: [main] returns [None], 0 or 1. *)
Theorem main_frame
        {ud : UnicodeData} {cd : Codecs}
        (script_path timestamp date_str : str) (fs : filesystem) :
  let OUTPUT_DIR := dirname (dirname script_path) in
  let output_path :=
    path_join OUTPUT_DIR (lit "logbie_docs_" ++ date_str ++ lit ".md") in
  path_exists fs OUTPUT_DIR = true ->
  (forall q,
      q <> output_path -> q <> dirname output_path ->
      fs_lookup (fst (main script_path timestamp date_str fs)) q
      = fs_lookup fs q) /\
  (exists value,
      snd (main script_path timestamp date_str fs) = Ok value /\
      (value = None \/ value = Some 0%Z \/ value = Some 1%Z)).
Proof.
  intros OUTPUT_DIR output_path Hexists.
  unfold main. fold OUTPUT_DIR. fold output_path.
  unfold io_try, io_bind, io_read, io_ret. rewrite Hexists. cbn [negb].
  destruct (find_markdown_files fs (path_join OUTPUT_DIR (lit "Docs")))
    as [[|first rest]|e]; cbn [fst snd]; try (split; [reflexivity|eauto]).
  destruct (combine_markdown_files fs timestamp (first :: rest))
    as [document|e]; cbn [fst snd]; try (split; [reflexivity|eauto]).
  destruct (write_output_file_frame document output_path fs) as [Hframe _].
  destruct (write_output_file document output_path fs) as [fs' [[]|e]];
    cbn [fst snd] in *; (split; [exact Hframe|eauto]).
Qed.

Lemma main_frame_witness :
  fs_lookup (fst (@main ascii_only python_codecs sample_script sample_timestamp
                    sample_date sample_fs)) (lit "/repo/Docs/doc.md")
  = Some (File (bytes_of round_trip_body)).
Proof.
  destruct (@main_frame ascii_only python_codecs sample_script sample_timestamp
              sample_date sample_fs eq_refl) as [Hframe _].
  rewrite Hframe; [reflexivity|discriminate|discriminate].
Defined.

(** ** Anchors *)

Lemma filter_has_no (c : codepoint) (p : codepoint -> bool) (s : str) :
  (forall x, p x = true -> x <> c) -> has_no c (filter p s) = true.
Proof.
  intros Hp. unfold has_no. rewrite forallb_forall. intros x Hx.
  apply filter_In in Hx as [_ Hx]. unfold is_not.
  apply negb_true_iff, N.eqb_neq. now apply Hp.
Qed.

Lemma has_no_filter (c : codepoint) (p : codepoint -> bool) (s : str) :
  has_no c s = true -> has_no c (filter p s) = true.
Proof.
  unfold has_no. rewrite !forallb_forall. intros H x Hx.
  apply filter_In in Hx as [Hx _]. now apply H.
Qed.

(** X18. The anchor of a table-of-contents entry never holds a space, a
    full stop or a colon, whatever the title. *)
Theorem toc_anchor_never_holds
        {ud : UnicodeData} (title : str) :
  has_no 32%N (toc_anchor title) = true /\
  has_no 46%N (toc_anchor title) = true /\
  has_no 58%N (toc_anchor title) = true.
Proof.
  unfold toc_anchor. change (lit "-") with [45%N].
  rewrite replace_one, !replace_none.
  split; [|split].
  - do 2 apply has_no_filter. unfold has_no. rewrite forallb_forall.
    intros x Hx. apply in_map_iff in Hx as (y & <- & _). unfold is_not.
    destruct (N.eqb_spec y 32) as [->|Hy]; [reflexivity|].
    now apply negb_true_iff, N.eqb_neq.
  - apply has_no_filter, filter_has_no. intros x Hx. unfold is_not in Hx.
    now apply negb_true_iff, N.eqb_neq in Hx.
  - apply filter_has_no. intros x Hx. unfold is_not in Hx.
    now apply negb_true_iff, N.eqb_neq in Hx.
Qed.
